(** * Chat-App: the WebSocket relay (server/server.js) and the React client
      session (client/src/App.jsx)

    The development embeds the two programs as state-passing functions:
    every event handler of the source is one function from the state before
    the event to the state after it, and the [try]/[catch] blocks are
    written with a small completion monad.  [JSON.parse] and
    [JSON.stringify] belong to the language, not to the repository: the
    models take them from a [Codec] interface, the theorems hold for every
    instance, and [Wire] provides one instance to evaluate the models on
    concrete payloads. *)

From Stdlib Require Import ZArith SpecFloat Ascii String.
From stdpp Require Import base option list strings gmap pretty.

Open Scope string_scope.

(* ===================================================================== *)
(** * JavaScript values *)
(* ===================================================================== *)

Module JS.

(** A JavaScript string is taken as a Rocq [string] whose characters are the
    UTF-16 code units below 256. A number is an IEEE-754 double. An object
    is the list of its own enumerable properties in enumeration order. *)
#[warnings="-register-all"]
Inductive value : Type :=
| VUndefined
| VNull
| VBool (b : bool)
| VNum (n : spec_float)
| VStr (s : string)
| VArr (items : list value)
| VObj (fields : list (string * value)).

Inductive error : Type :=
| SyntaxError
| TypeError.

(** How an expression or a statement ends: with a value, or by throwing. *)
Inductive completion (A : Type) : Type :=
| Normal (a : A)
| Throw (e : error).
Arguments Normal {A} a.
Arguments Throw {A} e.

(** Code that reads and writes a program state [S] and may throw. The state
    reached when an exception is thrown is kept: effects made before the
    [throw] are visible in the [catch] block. *)
Definition js (S A : Type) : Type := S -> S * completion A.

Definition ret {S A : Type} (a : A) : js S A := fun s => (s, Normal a).

Definition lift {S A : Type} (c : completion A) : js S A := fun s => (s, c).

Definition bind {S A B : Type} (m : js S A) (k : A -> js S B) : js S B :=
  fun s =>
    match m s with
    | (s', Normal a) => k a s'
    | (s', Throw e) => (s', Throw e)
    end.

Definition gets {S A : Type} (f : S -> A) : js S A :=
  fun s => (s, Normal (f s)).

Definition modify {S : Type} (f : S -> S) : js S unit :=
  fun s => (f s, Normal tt).

(** [try { body } catch (error) { handler }]. *)
Definition try_catch {S : Type} (body : js S unit) (handler : error -> js S unit)
  : js S unit :=
  fun s =>
    match body s with
    | (s', Normal a) => (s', Normal a)
    | (s', Throw e) => handler e s'
    end.

Declare Scope js_scope.
Delimit Scope js_scope with js.
Notation "'let*' x ':=' c 'in' k" := (bind c (fun x => k))
  (at level 10, x name, c at level 100, k at level 200) : js_scope.
Notation "c ';;;' k" := (bind c (fun _ => k))
  (at level 100, k at level 200, right associativity) : js_scope.

(** [l.forEach(f)]. *)
Fixpoint for_each {S A : Type} (l : list A) (f : A -> js S unit) : js S unit :=
  match l with
  | [] => ret tt
  | x :: rest => bind (f x) (fun _ => for_each rest f)
  end.

(** The state a handler leaves, and how the handler ended. *)
Definition exec {S A : Type} (m : js S A) (s : S) : S := fst (m s).
Definition outcome {S A : Type} (m : js S A) (s : S) : completion A := snd (m s).

(** [ToBoolean]. *)
Definition truthy (v : value) : bool :=
  match v with
  | VUndefined | VNull => false
  | VBool b => b
  | VNum (S754_zero _) | VNum S754_nan => false
  | VNum _ => true
  | VStr s => negb (String.eqb s "")
  | VArr _ | VObj _ => true
  end.

(** [v === 'literal']: strict equality against a string. *)
Definition strict_eq_str (v : value) (s : string) : bool :=
  match v with
  | VStr t => String.eqb t s
  | _ => false
  end.

Fixpoint obj_get (k : string) (fields : list (string * value)) : value :=
  match fields with
  | [] => VUndefined
  | (k', v) :: rest => if String.eqb k' k then v else obj_get k rest
  end.

(** Writing a property keeps the position of an existing key and appends a
    new one at the end. *)
Fixpoint obj_set (k : string) (v : value) (fields : list (string * value))
  : list (string * value) :=
  match fields with
  | [] => [(k, v)]
  | (k', v') :: rest =>
      if String.eqb k' k then (k', v) :: rest
      else (k', v') :: obj_set k v rest
  end.

(** [v.k] for the property names the programs read ([type], [user],
    [message], [timestamp], [username]): none of them is on a prototype, so
    the lookup finds an own property of an object or nothing; on [null] and
    [undefined] it throws. *)
Definition prop (v : value) (k : string) : completion value :=
  match v with
  | VUndefined | VNull => Throw TypeError
  | VObj fields => Normal (obj_get k fields)
  | _ => Normal VUndefined
  end.

(** [v.k = x] in sloppy mode (server.js is a CommonJS script without
    ['use strict']). On a primitive the write is silently dropped; on an
    array it creates a non-index property, which [JSON.stringify] does not
    see; on [null] and [undefined] it throws. *)
Definition assign (v : value) (k : string) (x : value) : completion value :=
  match v with
  | VUndefined | VNull => Throw TypeError
  | VObj fields => Normal (VObj (obj_set k x fields))
  | _ => Normal v
  end.

Definition string_units (s : string) : list string :=
  (fun a => String a EmptyString) <$> list_ascii_of_string s.

(** The own enumerable properties copied by [{...v}]. *)
Definition spread (v : value) : list (string * value) :=
  match v with
  | VObj fields => fields
  | VArr items => imap (fun i x => (pretty i, x)) items
  | VStr s => imap (fun i c => (pretty i, VStr c)) (string_units s)
  | _ => []
  end.

(** White space and line terminators among the code units below 256. *)
Definition is_space (a : ascii) : bool :=
  let n := nat_of_ascii a in
  ((9 <=? n) && (n <=? 13) || (n =? 32) || (n =? 160))%nat.

Fixpoint trim_start (s : string) : string :=
  match s with
  | EmptyString => EmptyString
  | String a rest => if is_space a then trim_start rest else s
  end.

(** [trim_end] keeps a character when it is not a space or when something
    survives to its right. *)
Fixpoint trim_end (s : string) : string :=
  match s with
  | EmptyString => EmptyString
  | String a rest =>
      match trim_end rest with
      | EmptyString => if is_space a then EmptyString else String a EmptyString
      | kept => String a kept
      end
  end.

(** [String.prototype.trim]. *)
Definition trim (s : string) : string := trim_end (trim_start s).

(** [JSON.parse] ([None] when it throws a [SyntaxError]) and
    [JSON.stringify]. *)
Class Codec : Type := {
  JSON_parse : string -> option value;
  JSON_stringify : value -> string
}.

Definition parse `{Codec} (data : string) : completion value :=
  match JSON_parse data with
  | Some v => Normal v
  | None => Throw SyntaxError
  end.

(** [WebSocket.readyState]: CONNECTING = 0, OPEN = 1, CLOSING = 2,
    CLOSED = 3. *)
Inductive ready_state : Type := CONNECTING | OPEN | CLOSING | CLOSED.

#[global] Instance ready_state_eq_dec : EqDecision ready_state.
Proof. solve_decision. Defined.

End JS.

Import JS.
Open Scope js_scope.

(* ===================================================================== *)
(** * The relay: server/server.js *)
(* ===================================================================== *)

Module Server.

(** A connection is the [ws] object the library hands to the
    ['connection'] callback; objects are told apart by a number. *)
Definition conn := nat.

Inductive log_entry : Type :=
| LogConnected (total : Z)
| LogReceived (data : string)
| LogProcessingError (e : error)
| LogDisconnected (total : Z)
| LogSocketError (message : string).

Record server : Type := {
  clients : list conn;               (* [const clients = new Set()], in insertion order *)
  sockets : gmap conn ready_state;   (* [readyState] of every [ws] object *)
  sent : list (conn * string);       (* the calls [client.send(text)], oldest first *)
  console : list log_entry
}.

Definition initial : server :=
  {| clients := []; sockets := ∅; sent := []; console := [] |}.

Definition log (e : log_entry) (s : server) : server :=
  {| clients := clients s; sockets := sockets s; sent := sent s;
     console := console s ++ [e] |}.

Definition send (ws : conn) (text : string) (s : server) : server :=
  {| clients := clients s; sockets := sockets s;
     sent := sent s ++ [(ws, text)]; console := console s |}.

Definition with_clients (l : list conn) (s : server) : server :=
  {| clients := l; sockets := sockets s; sent := sent s;
     console := console s |}.

(** [Set.prototype.add] and [Set.prototype.delete]. *)
Definition set_add (ws : conn) (l : list conn) : list conn :=
  if decide (ws ∈ l) then l else l ++ [ws].

Definition set_delete (ws : conn) (l : list conn) : list conn :=
  filter (fun c => c ≠ ws) l.

Definition size (s : server) : Z := Z.of_nat (length (clients s)).

(** [client.readyState === WebSocket.OPEN]. *)
Definition is_open (s : server) (client : conn) : bool :=
  bool_decide (sockets s !! client = Some OPEN).


Section Handlers.
Context `{Codec}.

Definition welcome (now : string) : value :=
  VObj [("type", VStr "system");
        ("message", VStr "Connected to chat server!");
        ("timestamp", VStr now)].

(** [server.on('connection', (ws) => ...)]; [now] is the value of
    [new Date().toISOString()]. *)
Definition on_connection (ws : conn) (now : string) : js server unit :=
  let* total := gets size in
  modify (log (LogConnected (total + 1))) ;;;
  modify (fun s => with_clients (set_add ws (clients s)) s) ;;;
  modify (send ws (JSON_stringify (welcome now))).

(** [clients.forEach((client) => { if (client.readyState === OPEN)
    client.send(JSON.stringify(messageData)) })]. *)
Definition broadcast (messageData : value) : js server unit :=
  let* registry := gets clients in
  for_each registry (fun client =>
    let* open := gets (fun s => is_open s client) in
    if open then modify (send client (JSON_stringify messageData))
    else ret tt).

(** [ws.on('message', (data) => ...)]. *)
Definition on_message (ws : conn) (data now : string) : js server unit :=
  modify (log (LogReceived data)) ;;;
  try_catch
    (let* messageData := lift (parse data) in
     let* messageData := lift (assign messageData "timestamp" (VStr now)) in
     broadcast messageData)
    (fun error => modify (log (LogProcessingError error))).

(** [ws.on('close', ...)]. *)
Definition on_close (ws : conn) : js server unit :=
  let* total := gets size in
  modify (log (LogDisconnected (total - 1))) ;;;
  modify (fun s => with_clients (set_delete ws (clients s)) s).

(** [ws.on('error', (error) => ...)]; [message] is [error.message]. *)
Definition on_error (ws : conn) (message : string) : js server unit :=
  modify (log (LogSocketError message)) ;;;
  modify (fun s => with_clients (set_delete ws (clients s)) s).

(** What the [ws] library does to a socket object, outside the handlers. *)
Definition set_ready (ws : conn) (r : ready_state) (s : server) : server :=
  {| clients := clients s; sockets := <[ws := r]> (sockets s);
     sent := sent s; console := console s |}.

(** The events the relay is driven by. The library opens a socket before it
    emits ['connection'], marks it CLOSING before ['error'] and CLOSED
    before ['close']; [Transport] is any other change of a socket's ready
    state (the peer starts the closing handshake, [client.close()] during
    shutdown). *)
Inductive event : Type :=
| Accept (ws : conn) (now : string)
| Inbound (ws : conn) (data now : string)
| Closed (ws : conn)
| Errored (ws : conn) (message : string)
| Transport (ws : conn) (r : ready_state).

Definition step (s : server) (e : event) : server :=
  match e with
  | Accept ws now => exec (on_connection ws now) (set_ready ws OPEN s)
  | Inbound ws data now => exec (on_message ws data now) s
  | Closed ws => exec (on_close ws) (set_ready ws CLOSED s)
  | Errored ws message => exec (on_error ws message) (set_ready ws CLOSING s)
  | Transport ws r => set_ready ws r s
  end.

Definition run (evs : list event) (s : server) : server := foldl step s evs.

(** Whether the last of the ['connection'], ['close'] and ['error'] events
    of [ws] in a history is a ['connection']. *)
Definition live_after (ws : conn) (before : bool) (e : event) : bool :=
  match e with
  | Accept c _ => if decide (c = ws) then true else before
  | Closed c | Errored c _ => if decide (c = ws) then false else before
  | Inbound _ _ _ | Transport _ _ => before
  end.

Definition live (ws : conn) (evs : list event) : bool :=
  foldl (live_after ws) false evs.

(** Whether a history accepts [ws]. *)
Definition accepts (ws : conn) (e : event) : bool :=
  match e with
  | Accept c _ => bool_decide (c = ws)
  | _ => false
  end.

(** The connections a slice of the send log addresses. *)
Definition targets (l : list (conn * string)) : list conn := fst <$> l.

(** The sends of one broadcast of [messageData]: one to every registered
    connection that is open, in registry order. *)
Definition deliveries (messageData : value) (s : server)
  : list (conn * string) :=
  (fun client => (client, JSON_stringify messageData))
    <$> filter (fun client => is_open s client) (clients s).

Definition deliver (l : list (conn * string)) (s : server) : server :=
  {| clients := clients s; sockets := sockets s; sent := sent s ++ l;
     console := console s |}.

(** The relay state without its console. *)
Definition quiet (s : server) : server :=
  {| clients := clients s; sockets := sockets s; sent := sent s;
     console := [] |}.

(** The part of the relay state a handler reads: the registry and the
    sockets. *)
Definition forget (s : server) : server :=
  {| clients := clients s; sockets := sockets s; sent := []; console := [] |}.

(** Two relay states that differ in the console only. *)
Definition same_traffic (s1 s2 : server) : Prop :=
  clients s1 = clients s2 /\ sockets s1 = sockets s2 /\ sent s1 = sent s2.

(** The sends made between an earlier state and a later one. *)
Definition sent_since (earlier later : server) : list (conn * string) :=
  drop (length (sent earlier)) (sent later).

End Handlers.

End Server.

(* ===================================================================== *)
(** * The client session: client/src/App.jsx *)
(* ===================================================================== *)

Module Client.

(** [connectionStatus]. *)
Inductive status : Type := disconnected | connecting | connected.

#[global] Instance status_eq_dec : EqDecision status.
Proof. solve_decision. Defined.

(** The local reports of the component: [console.log], [console.warn],
    [console.error] and [alert]. *)
Inductive report_entry : Type :=
| NoteConnecting
| NoteConnected
| NoteReceived (data : string)
| NoteParsed (messageData : value)
| NoteRegistered (registered : value)
| NoteUpdated (newMessages : list value)
| WarnUnknown (messageData : value)
| ErrorParsing (e : error)
| NoteDisconnected
| ErrorSocket
| NoteClosing
| NoteSending (messageData : value)
| Alert (text : string).

(** The browser's [WebSocket] object: its ready state, the frames handed to
    [send], and the [username] its [onmessage] handler closed over when the
    effect installed it. *)
Record websocket : Type := {
  readyState : ready_state;
  outgoing : list string;
  handler_username : string
}.

Record session : Type := {
  messages : list value;                 (* [useState([])] *)
  inputMessage : string;
  username : string;
  hasJoined : bool;
  connectionStatus : status;
  ws_current : option websocket;         (* [ws.current], [null] at first *)
  localStorage : gmap string string;
  reports : list report_entry;
  replaced : list websocket              (* the sockets [ws.current] held before *)
}.

Definition set_messages (v : list value) (s : session) : session :=
  {| messages := v; inputMessage := inputMessage s; username := username s;
     hasJoined := hasJoined s; connectionStatus := connectionStatus s;
     ws_current := ws_current s; localStorage := localStorage s;
     reports := reports s;
     replaced := replaced s |}.

Definition set_inputMessage (v : string) (s : session) : session :=
  {| messages := messages s; inputMessage := v; username := username s;
     hasJoined := hasJoined s; connectionStatus := connectionStatus s;
     ws_current := ws_current s; localStorage := localStorage s;
     reports := reports s;
     replaced := replaced s |}.

Definition set_username (v : string) (s : session) : session :=
  {| messages := messages s; inputMessage := inputMessage s; username := v;
     hasJoined := hasJoined s; connectionStatus := connectionStatus s;
     ws_current := ws_current s; localStorage := localStorage s;
     reports := reports s;
     replaced := replaced s |}.

Definition set_hasJoined (v : bool) (s : session) : session :=
  {| messages := messages s; inputMessage := inputMessage s;
     username := username s; hasJoined := v;
     connectionStatus := connectionStatus s; ws_current := ws_current s;
     localStorage := localStorage s; reports := reports s;
     replaced := replaced s |}.

Definition set_connectionStatus (v : status) (s : session) : session :=
  {| messages := messages s; inputMessage := inputMessage s;
     username := username s; hasJoined := hasJoined s;
     connectionStatus := v; ws_current := ws_current s;
     localStorage := localStorage s; reports := reports s;
     replaced := replaced s |}.

Definition set_ws (v : option websocket) (s : session) : session :=
  {| messages := messages s; inputMessage := inputMessage s;
     username := username s; hasJoined := hasJoined s;
     connectionStatus := connectionStatus s; ws_current := v;
     localStorage := localStorage s; reports := reports s;
     replaced := replaced s |}.

Definition set_localStorage (v : gmap string string) (s : session) : session :=
  {| messages := messages s; inputMessage := inputMessage s;
     username := username s; hasJoined := hasJoined s;
     connectionStatus := connectionStatus s; ws_current := ws_current s;
     localStorage := v; reports := reports s;
     replaced := replaced s |}.

Definition report (e : report_entry) (s : session) : session :=
  {| messages := messages s; inputMessage := inputMessage s;
     username := username s; hasJoined := hasJoined s;
     connectionStatus := connectionStatus s; ws_current := ws_current s;
     localStorage := localStorage s; reports := reports s ++ [e];
     replaced := replaced s |}.

Definition set_replaced (v : list websocket) (s : session) : session :=
  {| messages := messages s; inputMessage := inputMessage s;
     username := username s; hasJoined := hasJoined s;
     connectionStatus := connectionStatus s; ws_current := ws_current s;
     localStorage := localStorage s; reports := reports s;
     replaced := v |}.

(** [ws.current = new WebSocket(url)], followed by the assignments of the
    four handlers. The assignment does nothing to the socket the ref held:
    that object keeps its ready state and its handlers, and its events
    still come. *)
Definition assign_ws (w : websocket) (s : session) : session :=
  {| messages := messages s; inputMessage := inputMessage s;
     username := username s; hasJoined := hasJoined s;
     connectionStatus := connectionStatus s; ws_current := Some w;
     localStorage := localStorage s; reports := reports s;
     replaced := replaced s ++ match ws_current s with
                               | Some previous => [previous]
                               | None => []
                               end |}.

(** [setMessages(prev => [...prev, record])]. *)
Definition append_message (record : value) (s : session) : session :=
  set_messages (messages s ++ [record]) s.

Definition setItem (k v : string) (s : session) : session :=
  set_localStorage (<[k := v]> (localStorage s)) s.

Definition removeItem (k : string) (s : session) : session :=
  set_localStorage (delete k (localStorage s)) s.

Definition with_ready (r : ready_state) (w : websocket) : websocket :=
  {| readyState := r; outgoing := outgoing w;
     handler_username := handler_username w |}.

(** [WebSocket.prototype.close]: nothing on a socket that is closing or
    closed, otherwise the closing handshake starts. *)
Definition ws_close (w : websocket) : websocket :=
  match readyState w with
  | CLOSING | CLOSED => w
  | CONNECTING | OPEN => with_ready CLOSING w
  end.

(** [WebSocket.prototype.send] on an open socket. *)
Definition ws_send (frame : string) (w : websocket) : websocket :=
  {| readyState := readyState w; outgoing := outgoing w ++ [frame];
     handler_username := handler_username w |}.

(** [ws.current?.readyState === WebSocket.OPEN]. *)
Definition current_is_open (s : session) : bool :=
  match ws_current s with
  | Some w => bool_decide (readyState w = OPEN)
  | None => false
  end.

(** The frames handed to the socket in [ws.current]. *)
Definition transmitted (s : session) : list string :=
  match ws_current s with
  | Some w => outgoing w
  | None => []
  end.

Section Handlers.
Context `{Codec}.

(** [ws.current.onopen]. *)
Definition onopen : js session unit :=
  modify (report NoteConnected) ;;;
  modify (set_connectionStatus connected).

(** [ws.current.onmessage]; [me] is the [username] the handler closed
    over. *)
Definition onmessage (me data : string) : js session unit :=
  modify (report (NoteReceived data)) ;;;
  try_catch
    (let* messageData := lift (parse data) in
     modify (report (NoteParsed messageData)) ;;;
     let* type := lift (prop messageData "type") in
     if strict_eq_str type "system" then
       let* message := lift (prop messageData "message") in
       let* timestamp := lift (prop messageData "timestamp") in
       modify (append_message
                 (VObj [("user", VStr "System");
                        ("message", message);
                        ("timestamp", timestamp);
                        ("isMine", VBool false);
                        ("isSystem", VBool true)]))
     else
       let* type := lift (prop messageData "type") in
       if strict_eq_str type "register" then
         let* registered := lift (prop messageData "username") in
         modify (report (NoteRegistered registered))
       else
         let* user := lift (prop messageData "user") in
         let* both := (if truthy user then lift (prop messageData "message")
                       else ret user) in
         if truthy both then
           let* user := lift (prop messageData "user") in
           let isMine := strict_eq_str user me in
           modify (append_message
                     (VObj (obj_set "isMine" (VBool isMine)
                                    (spread messageData)))) ;;;
           let* newMessages := gets messages in
           modify (report (NoteUpdated newMessages))
         else
           modify (report (WarnUnknown messageData)))
    (fun error => modify (report (ErrorParsing error))).

(** [ws.current.onclose]. *)
Definition onclose : js session unit :=
  modify (report NoteDisconnected) ;;;
  modify (set_connectionStatus disconnected).

(** [ws.current.onerror]. *)
Definition onerror : js session unit :=
  modify (report ErrorSocket) ;;;
  modify (set_connectionStatus disconnected).

(** The cleanup function the effect returns. *)
Definition effect_cleanup : js session unit :=
  let* current := gets ws_current in
  match current with
  | Some w =>
      modify (report NoteClosing) ;;;
      modify (set_ws (Some (ws_close w)))
  | None => ret tt
  end.

(** The body of [useEffect(() => { ... }, [hasJoined, username])]: a new
    socket in state CONNECTING whose handlers close over the [username] of
    this render. *)
Definition effect : js session unit :=
  let* joined := gets hasJoined in
  if negb joined then ret tt
  else
    modify (report NoteConnecting) ;;;
    modify (set_connectionStatus connecting) ;;;
    let* me := gets username in
    modify (assign_ws {| readyState := CONNECTING; outgoing := [];
                         handler_username := me |}).

(** What React does after a render: when [hasJoined] or [username] differs
    from the previous render it runs the cleanup of the previous effect (the
    effect returned one when [hasJoined] was true) and then the effect. *)
Definition commit (before : session) : js session unit :=
  let* joined := gets hasJoined in
  let* me := gets username in
  if bool_decide (hasJoined before = joined /\ username before = me)
  then ret tt
  else
    (if hasJoined before then effect_cleanup else ret tt) ;;;
    effect.

(** [sendMessage]; [now] is the value of [new Date().toISOString()]. *)
Definition sendMessage (now : string) : js session unit :=
  let* text := gets inputMessage in
  if negb (truthy (VStr (trim text))) then ret tt
  else
    let* open := gets current_is_open in
    if negb open then modify (report (Alert "Not connected to server!"))
    else
      let* me := gets username in
      let messageData :=
        VObj [("type", VStr "message");
              ("user", VStr me);
              ("message", VStr (trim text));
              ("timestamp", VStr now)] in
      modify (report (NoteSending messageData)) ;;;
      modify (fun s => set_ws (ws_send (JSON_stringify messageData)
                                 <$> ws_current s) s) ;;;
      modify (set_inputMessage "").

(** [joinChat]. *)
Definition joinChat : js session unit :=
  let* name := gets username in
  if truthy (VStr (trim name)) then
    modify (setItem "chatUsername" (trim name)) ;;;
    modify (setItem "chatHasJoined" "true") ;;;
    modify (set_hasJoined true)
  else ret tt.

(** [logout]. *)
Definition logout : js session unit :=
  modify (removeItem "chatUsername") ;;;
  modify (removeItem "chatHasJoined") ;;;
  modify (set_hasJoined false) ;;;
  modify (set_username "") ;;;
  modify (set_messages []) ;;;
  let* current := gets ws_current in
  match current with
  | Some w => modify (set_ws (Some (ws_close w)))
  | None => ret tt
  end.

(** The component when it mounts: state read from [localStorage], then the
    effect runs for the first time. *)
Definition mount (storage : gmap string string) : session :=
  exec effect
    {| messages := []; inputMessage := "";
       username := default "" (storage !! "chatUsername");
       hasJoined := bool_decide (storage !! "chatHasJoined" = Some "true");
       connectionStatus := disconnected; ws_current := None;
       localStorage := storage; reports := [];
       replaced := [] |}.

(** What drives a session: the user (the name field, Join, the message
    field, Send, Logout) and the browser, for the socket in [ws.current]
    and for the sockets it held before, which are told apart by their
    position in [replaced]. A socket is closing or closed when the effect
    replaces it (the cleanup or [logout] has called [close] on it), so of
    its four handlers only [onerror] and [onclose] can still run. *)
Inductive session_event : Type :=
| TypeName (v : string)
| Join
| TypeMessage (v : string)
| Send (now : string)
| Logout
| SocketOpened
| SocketMessage (data : string)
| SocketClosed
| SocketFailed
| ReplacedClosed (i : nat)
| ReplacedFailed (i : nat).

(** A user action is its handler followed by React's commit. *)
Definition act (handler : js session unit) (s : session) : session :=
  exec (handler ;;; commit s) s.

(** The join screen is rendered while [hasJoined] is false, the chat screen
    otherwise; the message field and the Send button of the chat screen are
    [disabled] unless [connectionStatus === 'connected']. *)
Definition on_join_screen (s : session) : bool := negb (hasJoined s).

Definition can_type_message (s : session) : bool :=
  hasJoined s && bool_decide (connectionStatus s = connected).

(** One event. A user action reaches its handler only through a control
    that is rendered and enabled. For a socket event the browser sets the
    ready state and then calls the handler: [open] comes to a connecting
    socket, [message] to an open one, [close] to one that is not closed yet;
    a failed connection is closed and gets [error] followed by [close]. The
    [close] and the failure of a replaced socket run the same handlers, on
    the session as it is when they come. *)
Definition session_step (s : session) (e : session_event) : session :=
  match e with
  | TypeName v =>
      if on_join_screen s then act (modify (set_username v)) s else s
  | Join => if on_join_screen s then act joinChat s else s
  | TypeMessage v =>
      if can_type_message s then act (modify (set_inputMessage v)) s else s
  | Send now => if can_type_message s then act (sendMessage now) s else s
  | Logout => if hasJoined s then act logout s else s
  | SocketOpened =>
      match ws_current s with
      | Some w =>
          if decide (readyState w = CONNECTING)
          then exec onopen (set_ws (Some (with_ready OPEN w)) s)
          else s
      | None => s
      end
  | SocketMessage data =>
      match ws_current s with
      | Some w =>
          if decide (readyState w = OPEN)
          then exec (onmessage (handler_username w) data) s
          else s
      | None => s
      end
  | SocketClosed =>
      match ws_current s with
      | Some w =>
          if decide (readyState w = CLOSED) then s
          else exec onclose (set_ws (Some (with_ready CLOSED w)) s)
      | None => s
      end
  | SocketFailed =>
      match ws_current s with
      | Some w =>
          if decide (readyState w = CLOSED) then s
          else exec (onerror ;;; onclose)
                    (set_ws (Some (with_ready CLOSED w)) s)
      | None => s
      end
  | ReplacedClosed i =>
      match replaced s !! i with
      | Some w =>
          if decide (readyState w = CLOSED) then s
          else exec onclose
                    (set_replaced (<[i := with_ready CLOSED w]> (replaced s)) s)
      | None => s
      end
  | ReplacedFailed i =>
      match replaced s !! i with
      | Some w =>
          if decide (readyState w = CLOSED) then s
          else exec (onerror ;;; onclose)
                    (set_replaced (<[i := with_ready CLOSED w]> (replaced s)) s)
      | None => s
      end
  end.

Definition session_run (evs : list session_event) (s : session) : session :=
  foldl session_step s evs.

(** What holds of every session the component can be in: without a socket,
    or with a closed one, the status is [disconnected]; a socket that is
    connecting or open was installed by the render of the current
    [username]. *)
Definition consistent (s : session) : Prop :=
  match ws_current s with
  | None => connectionStatus s = disconnected
  | Some w =>
      (readyState w = CLOSED -> connectionStatus s = disconnected) /\
      (readyState w = CONNECTING \/ readyState w = OPEN ->
       hasJoined s = true /\ handler_username w = username s)
  end.

(** The session without its reports. *)
Definition session_quiet (s : session) : session :=
  {| messages := messages s; inputMessage := inputMessage s;
     username := username s; hasJoined := hasJoined s;
     connectionStatus := connectionStatus s; ws_current := ws_current s;
     localStorage := localStorage s; reports := [];
     replaced := replaced s |}.

(** The record [onmessage] appends for a user message with fields
    [fields], in a session whose handler closed over [me]. *)
Definition tagged (me : string) (fields : list (string * value)) : value :=
  VObj (obj_set "isMine" (VBool (strict_eq_str (obj_get "user" fields) me))
                fields).

(** Whether a parsed payload comes to the last [else] of [onmessage]: the
    reads of its properties do not throw, its [type] is neither ['system']
    nor ['register'], and its [user] or its [message] is not truthy. *)
Definition unknown_format (v : value) : bool :=
  match prop v "type", prop v "user", prop v "message" with
  | Normal type, Normal user, Normal message =>
      negb (strict_eq_str type "system")
      && negb (strict_eq_str type "register")
      && negb (truthy user && truthy message)
  | _, _, _ => false
  end.

(** The message [sendMessage] builds from the text of the message field. *)
Definition outgoing_message (me text now : string) : value :=
  VObj [("type", VStr "message");
        ("user", VStr me);
        ("message", VStr (trim text));
        ("timestamp", VStr now)].

End Handlers.

End Client.

(* ===================================================================== *)
(** * A JSON codec to run the models on concrete payloads *)
(* ===================================================================== *)

Module Wire.

(** [read] and [print] follow [JSON.parse] and [JSON.stringify] on the
    whole grammar of JSON: white space, the three literals, numbers (read to
    the nearest double, printed with the shortest digits that read back),
    strings with their escapes, arrays, and objects with their properties
    in enumeration order. Strings are those of [JS.value]: a [\u] escape of
    a code unit above 255 is outside them and is refused. No theorem about
    the relay or the session depends on this instance. *)

Definition dquote : ascii := "034"%char.
Definition backslash : ascii := "\"%char.

Definition is_char (a b : ascii) : bool := Ascii.eqb a b.

Definition is_digit (a : ascii) : bool :=
  let n := nat_of_ascii a in ((48 <=? n) && (n <=? 57))%nat.

Definition digit_value (a : ascii) : Z := Z.of_nat (nat_of_ascii a) - 48.

Definition hex_value (a : ascii) : option nat :=
  let n := nat_of_ascii a in
  if ((48 <=? n) && (n <=? 57))%nat then Some (n - 48)%nat
  else if ((97 <=? n) && (n <=? 102))%nat then Some (n - 87)%nat
  else if ((65 <=? n) && (n <=? 70))%nat then Some (n - 55)%nat
  else None.

Definition hex_digit (n : nat) : ascii :=
  nth n (list_ascii_of_string "0123456789abcdef") "0"%char.

(** ** Numbers *)

(** The double nearest to [M * 10^E] (ties to even), for [M > 0]. For a
    negative [E] the quotient is taken with enough bits below the rounding
    position and a sticky last bit. *)
Definition decimal_to_double (neg : bool) (M E : Z) : spec_float :=
  if (M =? 0)%Z then S754_zero neg
  else
    let '(m, e) :=
      if (0 <=? E)%Z then (M * 10 ^ E, 0)%Z
      else
        let D := (10 ^ (- E))%Z in
        let t := Z.max 0 (64 + Z.log2 D - Z.log2 M) in
        let q := (M * 2 ^ t / D)%Z in
        let r := ((M * 2 ^ t) mod D)%Z in
        ((2 * q + (if (r =? 0)%Z then 0 else 1))%Z, (- t - 1)%Z) in
    binary_normalize 53 1024 (if neg then (- m)%Z else m) e neg.

(** [x >= 10^n] for the rational [x = num / den]. *)
Definition ge_pow10 (num den n : Z) : bool :=
  if (0 <=? n)%Z then (den * 10 ^ n <=? num)%Z
  else (den <=? num * 10 ^ (- n))%Z.

Fixpoint adjust_up (fuel : nat) (num den n : Z) : Z :=
  match fuel with
  | O => n
  | S fuel => if ge_pow10 num den n then adjust_up fuel num den (n + 1) else n
  end.

Fixpoint adjust_down (fuel : nat) (num den n : Z) : Z :=
  match fuel with
  | O => n
  | S fuel =>
      if ge_pow10 num den (n - 1) then n else adjust_down fuel num den (n - 1)
  end.

(** The [n] with [10^(n-1) <= num/den < 10^n]. *)
Definition decimal_exponent (num den : Z) : Z :=
  let guess := ((Z.log2 num - Z.log2 den) * 30103 / 100000)%Z in
  adjust_down 8 num den (adjust_up 8 num den guess).

(** The shortest digit string that reads back as [x], as [s * 10^p]: for
    each number [k] of digits the two [k]-digit neighbours of [x] are tried,
    and the nearer one that reads back wins. *)
Fixpoint shortest (fuel : nat) (k : Z) (x : spec_float) (num den n : Z)
  : Z * Z :=
  let p := (n - k)%Z in
  let '(a, b) := if (0 <=? - p)%Z then (num * 10 ^ (- p), den)%Z
                 else (num, den * 10 ^ p)%Z in
  let lo := (a / b)%Z in
  let r := (a mod b)%Z in
  let hi := (lo + 1)%Z in
  let ok s := SFeqb (decimal_to_double false s p) x in
  let nearer_lo :=
    match (2 * r ?= b)%Z with
    | Lt => true
    | Gt => false
    | Eq => Z.even lo
    end in
  match fuel with
  | O => (lo, p)
  | S fuel =>
      if ok lo && ok hi then (if nearer_lo then (lo, p) else (hi, p))
      else if ok lo then (lo, p)
      else if ok hi then (hi, p)
      else shortest fuel (k + 1) x num den n
  end.

Fixpoint strip_zeros (fuel : nat) (s p : Z) : Z * Z :=
  match fuel with
  | O => (s, p)
  | S fuel =>
      if ((s mod 10 =? 0) && negb (s =? 0))%Z
      then strip_zeros fuel (s / 10)%Z (p + 1)%Z
      else (s, p)
  end.

Definition zeros (n : Z) : string :=
  string_of_list_ascii (replicate (Z.to_nat n) "0"%char).

(** [Number::toString] for a positive finite number given by its digits
    [s] and the position [n] of the decimal point. *)
Definition format_digits (s n : Z) : string :=
  let digits : string := pretty s in
  let k := Z.of_nat (String.length digits) in
  if ((k <=? n) && (n <=? 21))%Z then digits ++ zeros (n - k)
  else if ((0 <? n) && (n <=? 21))%Z then
    substring 0 (Z.to_nat n) digits ++ "." ++
    substring (Z.to_nat n) (Z.to_nat (k - n)) digits
  else if ((-6 <? n) && (n <=? 0))%Z then "0." ++ zeros (- n) ++ digits
  else
    let e := (n - 1)%Z in
    let exponent : string :=
      (if (0 <=? e)%Z then "e+" else "e-") ++ pretty (Z.abs e) in
    if (k =? 1)%Z then digits ++ exponent
    else substring 0 1 digits ++ "." ++
         substring 1 (Z.to_nat (k - 1)) digits ++ exponent.

(** A number as [JSON.stringify] prints it. *)
Definition print_number (x : spec_float) : string :=
  match x with
  | S754_zero _ => "0"
  | S754_infinity _ | S754_nan => "null"
  | S754_finite neg m e =>
      let '(num, den) := if (0 <=? e)%Z then (Zpos m * 2 ^ e, 1)%Z
                          else (Zpos m, 2 ^ (- e))%Z in
      let n := decimal_exponent num den in
      let '(s, p) := shortest 17 1 (SFabs x) num den n in
      let '(s, p) := strip_zeros 400 s p in
      let k := Z.of_nat (String.length (pretty s)) in
      (if neg then "-" else "") ++ format_digits s (k + p)
  end.

(** ** Printing *)

Definition print_char (a : ascii) : list ascii :=
  let n := nat_of_ascii a in
  if (n =? 34)%nat then [backslash; dquote]
  else if (n =? 92)%nat then [backslash; backslash]
  else if (n =? 8)%nat then [backslash; "b"%char]
  else if (n =? 12)%nat then [backslash; "f"%char]
  else if (n =? 10)%nat then [backslash; "n"%char]
  else if (n =? 13)%nat then [backslash; "r"%char]
  else if (n =? 9)%nat then [backslash; "t"%char]
  else if (n <? 32)%nat then
    [backslash; "u"%char; "0"%char; "0"%char;
     hex_digit (n / 16); hex_digit (n mod 16)]
  else [a].

Definition print_string (s : string) : string :=
  string_of_list_ascii
    ([dquote] ++ mbind print_char (list_ascii_of_string s) ++ [dquote]).

Fixpoint join (sep : string) (l : list string) : string :=
  match l with
  | [] => ""
  | [x] => x
  | x :: rest => x ++ sep ++ join sep rest
  end.

Definition is_undefined (v : value) : bool :=
  match v with
  | VUndefined => true
  | _ => false
  end.

(** [JSON.stringify(v)]: properties whose value is [undefined] are left
    out, [undefined] in an array prints as [null]. (At the top level
    [undefined] has no text; the programs never print it.) *)
Fixpoint print (v : value) : string :=
  match v with
  | VUndefined => "undefined"
  | VNull => "null"
  | VBool true => "true"
  | VBool false => "false"
  | VNum x => print_number x
  | VStr s => print_string s
  | VArr items =>
      "[" ++ join "," (map (fun x => if is_undefined x then "null"
                                     else print x) items) ++ "]"
  | VObj fields =>
      "{" ++ join "," (omap (fun '(k, x) =>
                               if is_undefined x then None
                               else Some (print_string k ++ ":" ++ print x))
                            fields) ++ "}"
  end.

(** ** Parsing *)

(** JSON white space: space, tab, line feed, carriage return. *)
Definition is_ws (a : ascii) : bool :=
  let n := nat_of_ascii a in
  ((n =? 32) || (n =? 9) || (n =? 10) || (n =? 13))%nat.

Fixpoint skip_ws (s : list ascii) : list ascii :=
  match s with
  | a :: rest => if is_ws a then skip_ws rest else s
  | [] => []
  end.

Definition unescape (a : ascii) : option ascii :=
  if is_char a dquote then Some dquote
  else if is_char a backslash then Some backslash
  else if is_char a "/" then Some "/"%char
  else if is_char a "b" then Some "008"%char
  else if is_char a "f" then Some "012"%char
  else if is_char a "n" then Some "010"%char
  else if is_char a "r" then Some "013"%char
  else if is_char a "t" then Some "009"%char
  else None.

(** The code unit of [\uXXXX], when it is below 256. *)
Definition unicode_escape (h1 h2 h3 h4 : ascii) : option ascii :=
  a ← hex_value h1; b ← hex_value h2; c ← hex_value h3; d ← hex_value h4;
  if ((a =? 0) && (b =? 0))%nat then Some (ascii_of_nat (16 * c + d))
  else None.

(** The characters of a string literal after its opening quote. *)
Fixpoint parse_string (s : list ascii) (acc : list ascii)
  : option (string * list ascii) :=
  match s with
  | [] => None
  | a :: rest =>
      if is_char a dquote then Some (string_of_list_ascii acc, rest)
      else if is_char a backslash then
        match rest with
        | e :: rest' =>
            if is_char e "u" then
              match rest' with
              | h1 :: h2 :: h3 :: h4 :: rest'' =>
                  match unicode_escape h1 h2 h3 h4 with
                  | Some c => parse_string rest'' (acc ++ [c])
                  | None => None
                  end
              | _ => None
              end
            else
              match unescape e with
              | Some c => parse_string rest' (acc ++ [c])
              | None => None
              end
        | [] => None
        end
      else if (nat_of_ascii a <? 32)%nat then None
      else parse_string rest (acc ++ [a])
  end.

(** A run of digits: its value, its length and what follows. *)
Fixpoint digits (s : list ascii) (acc : Z) (len : Z) : Z * Z * list ascii :=
  match s with
  | a :: rest =>
      if is_digit a then digits rest (10 * acc + digit_value a)%Z (len + 1)%Z
      else (acc, len, s)
  | [] => (acc, len, [])
  end.

(** [-? int frac? exp?]; an int is [0] or starts with a non-zero digit. *)
Definition parse_number (s : list ascii) : option (value * list ascii) :=
  let '(neg, s) := match s with
                   | a :: rest => if is_char a "-" then (true, rest)
                                  else (false, s)
                   | [] => (false, s)
                   end in
  '(int, int_len, after_int) ←
    match s with
    | a :: rest =>
        if is_char a "0" then Some (0%Z, 1%Z, rest)
        else if is_digit a then Some (digits s 0 0)
        else None
    | [] => None
    end;
  '(mantissa, frac_len, after_frac) ←
    match after_int with
    | a :: rest =>
        if is_char a "." then
          let '(m, len, rest') := digits rest int 0 in
          if (len =? 0)%Z then None else Some (m, len, rest')
        else Some (int, 0%Z, after_int)
    | [] => Some (int, 0%Z, after_int)
    end;
  '(exponent, after_exp) ←
    match after_frac with
    | a :: rest =>
        if is_char a "e" || is_char a "E" then
          let '(minus, rest) :=
            match rest with
            | b :: rest' => if is_char b "-" then (true, rest')
                            else if is_char b "+" then (false, rest')
                            else (false, rest)
            | [] => (false, rest)
            end in
          let '(e, len, rest') := digits rest 0 0 in
          if (len =? 0)%Z then None
          else Some (if minus then (- e)%Z else e, rest')
        else Some (0%Z, after_frac)
    | [] => Some (0%Z, after_frac)
    end;
  Some (VNum (decimal_to_double neg mantissa (exponent - frac_len)), after_exp).

Fixpoint strip_prefix (p s : list ascii) : option (list ascii) :=
  match p, s with
  | [], _ => Some s
  | a :: p', b :: s' => if is_char a b then strip_prefix p' s' else None
  | _ :: _, [] => None
  end.

Definition parse_literal (s : list ascii) : option (value * list ascii) :=
  match strip_prefix (list_ascii_of_string "null") s with
  | Some rest => Some (VNull, rest)
  | None =>
      match strip_prefix (list_ascii_of_string "true") s with
      | Some rest => Some (VBool true, rest)
      | None =>
          match strip_prefix (list_ascii_of_string "false") s with
          | Some rest => Some (VBool false, rest)
          | None => None
          end
      end
  end.

(** A property name that is an array index: the canonical decimal of an
    integer below 2^32 - 1. Such properties are enumerated first, in
    ascending order. *)
Definition array_index (k : string) : option Z :=
  match list_ascii_of_string k with
  | [] => None
  | a :: rest =>
      let '(n, len, after) := digits (a :: rest) 0 0 in
      match after with
      | [] =>
          if (is_char a "0" && negb (len =? 1)%Z) then None
          else if (n <? 4294967295)%Z then Some n
          else None
      | _ :: _ => None
      end
  end.

Fixpoint insert_index (i : Z) (kv : string * value)
    (l : list (Z * (string * value))) : list (Z * (string * value)) :=
  match l with
  | [] => [(i, kv)]
  | (j, kv') :: rest =>
      if (i <? j)%Z then (i, kv) :: l else (j, kv') :: insert_index i kv rest
  end.

Definition own_property_order (fields : list (string * value))
  : list (string * value) :=
  let indexed :=
    foldl (fun acc kv => match array_index (fst kv) with
                         | Some i => insert_index i kv acc
                         | None => acc
                         end) [] fields in
  (snd <$> indexed) ++
  filter (fun kv => array_index (fst kv) = None) fields.

Fixpoint parse_value (fuel : nat) (s : list ascii)
  : option (value * list ascii) :=
  match fuel with
  | O => None
  | S fuel =>
      match skip_ws s with
      | [] => None
      | a :: rest =>
          if is_char a "{" then
            match skip_ws rest with
            | b :: rest' =>
                if is_char b "}" then Some (VObj [], rest')
                else parse_members fuel rest []
            | [] => None
            end
          else if is_char a "[" then
            match skip_ws rest with
            | b :: rest' =>
                if is_char b "]" then Some (VArr [], rest')
                else parse_elements fuel rest []
            | [] => None
            end
          else if is_char a dquote then
            '(str, rest') ← parse_string rest [];
            Some (VStr str, rest')
          else if is_char a "-" || is_digit a then parse_number (a :: rest)
          else parse_literal (a :: rest)
      end
  end
with parse_elements (fuel : nat) (s : list ascii) (acc : list value)
  : option (value * list ascii) :=
  match fuel with
  | O => None
  | S fuel =>
      '(v, rest) ← parse_value fuel s;
      match skip_ws rest with
      | a :: rest' =>
          if is_char a "," then parse_elements fuel rest' (acc ++ [v])
          else if is_char a "]" then Some (VArr (acc ++ [v]), rest')
          else None
      | [] => None
      end
  end
with parse_members (fuel : nat) (s : list ascii) (acc : list (string * value))
  : option (value * list ascii) :=
  match fuel with
  | O => None
  | S fuel =>
      match skip_ws s with
      | a :: rest =>
          if is_char a dquote then
            '(k, rest) ← parse_string rest [];
            match skip_ws rest with
            | b :: rest =>
                if is_char b ":" then
                  '(v, rest) ← parse_value fuel rest;
                  match skip_ws rest with
                  | c :: rest' =>
                      if is_char c "," then
                        parse_members fuel rest' (obj_set k v acc)
                      else if is_char c "}" then
                        Some (VObj (own_property_order (obj_set k v acc)),
                              rest')
                      else None
                  | [] => None
                  end
                else None
            | [] => None
            end
          else None
      | [] => None
      end
  end.

(** [JSON.parse(data)]: one value, white space around it, nothing else. *)
Definition read (data : string) : option value :=
  let s := list_ascii_of_string data in
  '(v, rest) ← parse_value (2 * length s + 2) s;
  match skip_ws rest with
  | [] => Some v
  | _ :: _ => None
  end.

#[global] Instance codec : Codec :=
  {| JSON_parse := read; JSON_stringify := print |}.

(** Payloads are written with ['] for the double quote. *)
Definition text (s : string) : string :=
  string_of_list_ascii
    ((fun a => if is_char a "'" then dquote else a)
       <$> list_ascii_of_string s).

End Wire.

(* ===================================================================== *)
(** * Concrete relay states, sessions and payloads *)
(* ===================================================================== *)

Module Sample.
Import Wire.

(** A relay with connections 1 and 2 accepted. *)
Definition two_clients : Server.server :=
  Server.run [Server.Accept 1 "09:00"; Server.Accept 2 "09:01"]
             Server.initial.

(** The same after connection 2 has started to close. *)
Definition one_closing : Server.server :=
  Server.step two_clients (Server.Transport 2 CLOSING).

Definition hello : string :=
  text "{'type':'message','user':'Alice','message':'hi','timestamp':'08:59'}".

Definition hello_fields : list (string * value) :=
  [("type", VStr "message"); ("user", VStr "Alice"); ("message", VStr "hi");
   ("timestamp", VStr "08:59")].

Definition registration : string :=
  text "{'type':'register','username':'Bob'}".

Definition registration_fields : list (string * value) :=
  [("type", VStr "register"); ("username", VStr "Bob")].

Definition garbage : string := "this is not JSON".

Definition untyped : string :=
  text "{'type':'message','user':true,'message':['hi']}".

Definition untyped_fields : list (string * value) :=
  [("type", VStr "message"); ("user", VBool true);
   ("message", VArr [VStr "hi"])].

Definition anonymous : string := text "{'type':'message','message':'hi'}".

(** A session that joined as Alice and whose socket is open. *)
Definition alice : Client.session :=
  Client.session_run [Client.TypeName "Alice"; Client.Join; Client.SocketOpened]
             (Client.mount ∅).

(** The same session as Bob. *)
Definition bob : Client.session :=
  Client.session_run [Client.TypeName "Bob"; Client.Join; Client.SocketOpened]
             (Client.mount ∅).

Definition typing (v : string) (s : Client.session) : Client.session :=
  Client.session_step s (Client.TypeMessage v).

End Sample.

(* ===================================================================== *)
(** * The rest of the two programs: shutdown and rendering *)
(* ===================================================================== *)

Module Shutdown.
Import Server.

(** The two lines the [SIGINT] handler and the callback of [server.close]
    write. *)
Inductive notice : Type :=
| ShuttingDown
| ServerClosed.

(** The relay process: the relay state, whether the server still accepts
    connections, whether [process.exit] was called, and the two lines
    above. *)
Record process : Type := {
  relay : server;
  accepting : bool;
  exited : bool;
  notices : list notice
}.

Definition running (r : server) : process :=
  {| relay := r; accepting := true; exited := false; notices := [] |}.

Definition note (n : notice) (p : process) : process :=
  {| relay := relay p; accepting := accepting p; exited := exited p;
     notices := notices p ++ [n] |}.

Definition with_relay (f : server -> server) (p : process) : process :=
  {| relay := f (relay p); accepting := accepting p; exited := exited p;
     notices := notices p |}.

(** [client.close()] of the [ws] library: nothing on a closed or closing
    socket, otherwise the socket is CLOSING and the closing handshake
    starts. *)
Definition close_socket (client : conn) (s : server) : server :=
  match sockets s !! client with
  | Some OPEN | Some CONNECTING => set_ready client CLOSING s
  | _ => s
  end.

(** What [close] makes of a ready state. *)
Definition closed_state (o : option ready_state) : option ready_state :=
  match o with
  | Some OPEN | Some CONNECTING => Some CLOSING
  | _ => o
  end.

(** [process.on('SIGINT', ...)]: every registered connection is closed and
    the server stops accepting. The callback of [server.close] runs later,
    when the server has closed. *)
Definition on_sigint : js process unit :=
  modify (note ShuttingDown) ;;;
  let* registry := gets (fun p => clients (relay p)) in
  for_each registry (fun client => modify (with_relay (close_socket client))) ;;;
  modify (fun p => {| relay := relay p; accepting := false;
                      exited := exited p; notices := notices p |}).

(** The callback of [server.close]. *)
Definition on_server_closed : js process unit :=
  modify (note ServerClosed) ;;;
  modify (fun p => {| relay := relay p; accepting := accepting p;
                      exited := true; notices := notices p |}).

End Shutdown.

Module Render.

(** The three placements of a message row: [justify-center],
    [justify-end] and [justify-start]. *)
Inductive placement : Type := Centered | OnTheRight | OnTheLeft.

(** [msg.isSystem ? 'justify-center' : msg.isMine ? 'justify-end' :
    'justify-start'], for a record of the message sequence. *)
Definition justify (msg : list (string * value)) : placement :=
  if truthy (obj_get "isSystem" msg) then Centered
  else if truthy (obj_get "isMine" msg) then OnTheRight
  else OnTheLeft.

(** Whether the row shows the sender's name: [!msg.isMine && ...] in the
    branch of the messages that are not system messages. *)
Definition shows_sender (msg : list (string * value)) : bool :=
  negb (truthy (obj_get "isSystem" msg)) && negb (truthy (obj_get "isMine" msg)).

(** The text the row shows: [msg.message]. *)
Definition body (msg : list (string * value)) : value := obj_get "message" msg.

End Render.

Module Text.

(** Whether a string begins, or ends, with white space. *)
Definition starts_with_space (s : string) : bool :=
  match s with
  | String a _ => is_space a
  | EmptyString => false
  end.

Fixpoint ends_with_space (s : string) : bool :=
  match s with
  | EmptyString => false
  | String a EmptyString => is_space a
  | String _ rest => ends_with_space rest
  end.

(** A text as [trim] leaves it when it is not blank. *)
Definition clean (s : string) : Prop :=
  s <> "" /\ starts_with_space s = false /\ ends_with_space s = false.

End Text.

Module Persist.
Import Client.

(** What [localStorage] holds of a session: whether it has joined, and,
    once it has, its name, as it was typed or trimmed. *)
Definition persisted (s : session) : Prop :=
  hasJoined s = bool_decide (localStorage s !! "chatHasJoined" = Some "true") /\
  (hasJoined s = true ->
   default "" (localStorage s !! "chatUsername") = username s \/
   default "" (localStorage s !! "chatUsername") = trim (username s)).

(** A socket on which nothing can be sent or received any more. *)
Definition closing_or_closed (w : websocket) : Prop :=
  readyState w = CLOSING \/ readyState w = CLOSED.

End Persist.

Module Scenario.
Import Wire Sample.

(** A relay in the middle of a history: three connections accepted, the
    second closed again. *)
Definition busy_relay : Server.server :=
  Server.run [Server.Accept 1 "09:00"; Server.Accept 2 "09:01";
              Server.Accept 3 "09:02"; Server.Closed 2]
             Server.initial.

(** A session that joined as [" Alice "] and is still connecting. *)
Definition padded_alice : Client.session :=
  Client.session_run [Client.TypeName " Alice "; Client.Join]
                     (Client.mount ∅).

(** Alice's session after the connection dropped. *)
Definition dropped_alice : Client.session :=
  Client.session_step alice Client.SocketClosed.

(** Alice's session after she logged out and joined again before the
    [close] of her first socket came: the second socket is open. *)
Definition rejoined_alice : Client.session :=
  Client.session_run [Client.Logout; Client.TypeName "Alice"; Client.Join;
                      Client.SocketOpened]
                     alice.

Definition spoof : string :=
  text "{'user':'Mallory','message':'hi','isMine':true,'isSystem':true}".

Definition spoof_fields : list (string * value) :=
  [("user", VStr "Mallory"); ("message", VStr "hi"); ("isMine", VBool true);
   ("isSystem", VBool true)].

Definition notice_payload : string :=
  text "{'type':'system','message':'maintenance at noon','user':'Mallory'}".

Definition notice_fields : list (string * value) :=
  [("type", VStr "system"); ("message", VStr "maintenance at noon");
   ("user", VStr "Mallory")].

(** A Message of kind [message] without a body. *)
Definition bodiless : string := text "{'type':'message','user':'Alice'}".

Definition bodiless_fields : list (string * value) :=
  [("type", VStr "message"); ("user", VStr "Alice")].

End Scenario.

(* ===================================================================== *)
(** * The relay: registry, broadcast and time stamps *)
(* ===================================================================== *)

Module RelayFacts.
Import Server.
#[local] Open Scope list_scope.

Section WithCodec.
Context `{Codec}.

Lemma obj_get_set_eq k v fields : obj_get k (obj_set k v fields) = v.
Proof.
  induction fields as [|[k' v'] rest IH]; simpl.
  - now rewrite String.eqb_refl.
  - destruct (String.eqb k' k) eqn:E; simpl; now rewrite E.
Qed.

Lemma obj_get_set_ne k k' v fields :
  k <> k' -> obj_get k' (obj_set k v fields) = obj_get k' fields.
Proof.
  intros Hne. induction fields as [|[k0 v0] rest IH]; simpl.
  - destruct (String.eqb_spec k k'); congruence.
  - destruct (String.eqb_spec k0 k) as [->|]; simpl.
    + destruct (String.eqb_spec k k'); congruence.
    + destruct (String.eqb_spec k0 k'); congruence.
Qed.

(** A second write to a property wins over the first and lands in the same
    place. *)
Lemma obj_set_set k v w fields :
  obj_set k v (obj_set k w fields) = obj_set k v fields.
Proof.
  induction fields as [|[k' v'] rest IH]; simpl.
  - now rewrite String.eqb_refl.
  - destruct (String.eqb k' k) eqn:E; simpl; rewrite E; congruence.
Qed.

Lemma is_open_deliver l s c : is_open (deliver l s) c = is_open s c.
Proof. reflexivity. Qed.

Lemma deliver_nil s : deliver [] s = s.
Proof. destruct s; unfold deliver; simpl. now rewrite app_nil_r. Qed.

Lemma deliver_app l1 l2 s : deliver l2 (deliver l1 s) = deliver (l1 ++ l2) s.
Proof. unfold deliver; simpl. now rewrite app_assoc. Qed.

Lemma send_deliver c t s : send c t s = deliver [(c, t)] s.
Proof. reflexivity. Qed.

(** The loop of the broadcast, started anywhere in the registry. *)
Lemma for_each_send messageData (l : list conn) (s : server) :
  for_each l (fun client =>
      let* open := gets (fun s => is_open s client) in
      if open then modify (send client (JSON_stringify messageData))
      else ret tt) s
  = (deliver ((fun client => (client, JSON_stringify messageData))
                <$> filter (fun client => is_open s client) l) s,
     Normal tt).
Proof.
  revert s. induction l as [|c l IH]; intros s.
  - simpl. now rewrite deliver_nil.
  - cbn [for_each]. unfold bind at 1. unfold bind at 1. unfold gets at 1.
    rewrite filter_cons.
    destruct (is_open s c) eqn:Hc.
    + unfold modify at 1. rewrite IH, send_deliver, deliver_app.
      destruct (decide (is_open s c)) as [_|Hn].
      * reflexivity.
      * rewrite Hc in Hn. now destruct Hn.
    + unfold ret at 1. rewrite IH.
      destruct (decide (is_open s c)) as [Hy|_].
      * rewrite Hc in Hy. now destruct Hy.
      * reflexivity.
Qed.

Lemma broadcast_run messageData s :
  broadcast messageData s = (deliver (deliveries messageData s) s, Normal tt).
Proof. unfold broadcast, bind, gets. apply for_each_send. Qed.

(** What the ['message'] handler does with a payload that parses to an
    object: it logs it, stamps it and broadcasts it. *)
Lemma on_message_object ws data now s fields :
  JSON_parse data = Some (VObj fields) ->
  on_message ws data now s =
    (deliver (deliveries (VObj (obj_set "timestamp" (VStr now) fields)) s)
             (log (LogReceived data) s),
     Normal tt).
Proof.
  intros Hp. unfold on_message, bind, modify, try_catch, lift, parse.
  rewrite Hp. simpl. now rewrite broadcast_run.
Qed.

(** The same for any value the [timestamp] can be written to; what is
    broadcast is what the write leaves. *)
Lemma on_message_relayed ws data now s v stamped :
  JSON_parse data = Some v ->
  assign v "timestamp" (VStr now) = Normal stamped ->
  on_message ws data now s =
    (deliver (deliveries stamped s) (log (LogReceived data) s), Normal tt).
Proof.
  intros Hp Ha. unfold on_message, bind, modify, try_catch, lift, parse.
  rewrite Hp. simpl. rewrite Ha. simpl. now rewrite broadcast_run.
Qed.

(** ... and with one on which the [try] block throws. *)
Lemma on_message_thrown ws data now s :
  JSON_parse data = None \/ JSON_parse data = Some VNull ->
  exists e,
    on_message ws data now s =
      (log (LogProcessingError e) (log (LogReceived data) s), Normal tt).
Proof.
  intros [Hp|Hp]; unfold on_message, bind, modify, try_catch, lift, parse;
    rewrite Hp; simpl; eauto.
Qed.

(** The handlers never end by throwing. *)
Lemma handlers_complete ws data now message s :
  outcome (on_connection ws now) s = Normal tt /\
  outcome (on_message ws data now) s = Normal tt /\
  outcome (on_close ws) s = Normal tt /\
  outcome (on_error ws message) s = Normal tt.
Proof.
  repeat split; try reflexivity.
  unfold outcome, on_message, bind, modify, try_catch, lift, parse.
  destruct (JSON_parse data) as [v|]; [|reflexivity].
  destruct v; simpl; rewrite ?broadcast_run; reflexivity.
Qed.

(** The ['message'] handler reads nothing from the console and leaves the
    registry and the sockets alone. *)
Lemma on_message_quiet ws data now s :
  quiet (exec (on_message ws data now) s)
  = quiet (exec (on_message ws data now) (quiet s)).
Proof.
  unfold exec, on_message, bind, modify, try_catch, lift, parse.
  destruct (JSON_parse data) as [v|]; [|reflexivity].
  destruct v; simpl; rewrite ?broadcast_run; reflexivity.
Qed.

Lemma on_message_frame ws data now s :
  clients (exec (on_message ws data now) s) = clients s /\
  sockets (exec (on_message ws data now) s) = sockets s /\
  exists new,
    sent (exec (on_message ws data now) s) = sent s ++ new /\
    forall c, c ∈ targets new -> c ∈ clients s.
Proof.
  unfold exec, on_message, bind, modify, try_catch, lift, parse.
  assert (Hd : forall m c, c ∈ targets (deliveries m (log (LogReceived data) s))
                           -> c ∈ clients s).
  { intros m c. unfold targets, deliveries. rewrite <- list_fmap_compose.
    intros Hc. apply list_elem_of_fmap in Hc as (x & -> & Hx).
    apply list_elem_of_filter in Hx as [_ Hx]. exact Hx. }
  assert (Hn : forall c, c ∈ targets [] -> c ∈ clients s).
  { intros c Hc. inversion Hc. }
  destruct (JSON_parse data) as [v|];
    [destruct v|]; simpl; rewrite ?broadcast_run; simpl;
    repeat split; eauto; exists []; now rewrite app_nil_r.
Qed.

Lemma relay_step_quiet s e : quiet (step s e) = quiet (step (quiet s) e).
Proof.
  destruct e; try reflexivity. simpl. apply on_message_quiet.
Qed.

Lemma relay_run_quiet evs s1 s2 :
  quiet s1 = quiet s2 -> quiet (run evs s1) = quiet (run evs s2).
Proof.
  revert s1 s2. induction evs as [|e evs IH]; intros s1 s2 Hq; [exact Hq|].
  simpl. apply IH. rewrite (relay_step_quiet s1), (relay_step_quiet s2). now rewrite Hq.
Qed.

Lemma quiet_same_traffic s1 s2 : quiet s1 = quiet s2 <-> same_traffic s1 s2.
Proof.
  destruct s1, s2; unfold quiet, same_traffic; simpl. split.
  - intros [= -> -> ->]. auto.
  - intros (-> & -> & ->). reflexivity.
Qed.

(** ** The registry *)

Lemma elem_of_set_add (c ws : conn) l : c ∈ set_add ws l <-> c = ws \/ c ∈ l.
Proof.
  unfold set_add. destruct (decide (ws ∈ l)) as [Hin|Hout].
  - split; [auto|]. intros [->|]; auto.
  - rewrite elem_of_app, list_elem_of_singleton. tauto.
Qed.

Lemma elem_of_set_delete (c ws : conn) l :
  c ∈ set_delete ws l <-> c <> ws /\ c ∈ l.
Proof. unfold set_delete. now rewrite list_elem_of_filter. Qed.

Lemma set_delete_absent (ws : conn) l : ws ∉ l -> set_delete ws l = l.
Proof.
  intros Hout. unfold set_delete. induction l as [|c l IH]; [reflexivity|].
  rewrite filter_cons. rewrite not_elem_of_cons in Hout. destruct Hout as [Hne Hout].
  destruct (decide (c <> ws)) as [_|Heq]; [now rewrite IH|].
  exfalso. apply Heq. congruence.
Qed.

Lemma set_delete_twice (ws : conn) l :
  set_delete ws (set_delete ws l) = set_delete ws l.
Proof.
  apply set_delete_absent. rewrite elem_of_set_delete. tauto.
Qed.

Lemma NoDup_set_add (ws : conn) l : NoDup l -> NoDup (set_add ws l).
Proof.
  intros Hnd. unfold set_add. destruct (decide (ws ∈ l)) as [|Hout]; [exact Hnd|].
  apply NoDup_app. split; [exact Hnd|]. split.
  - intros x Hx Hx'. apply list_elem_of_singleton in Hx'. now subst.
  - apply NoDup_singleton.
Qed.

Lemma NoDup_set_delete (ws : conn) l : NoDup l -> NoDup (set_delete ws l).
Proof. apply NoDup_filter. Qed.

Lemma clients_step s e :
  clients (step s e) =
    match e with
    | Accept ws _ => set_add ws (clients s)
    | Closed ws | Errored ws _ => set_delete ws (clients s)
    | Inbound _ _ _ | Transport _ _ => clients s
    end.
Proof.
  destruct e; try reflexivity. simpl. apply on_message_frame.
Qed.

Lemma registry_NoDup evs s : NoDup (clients s) -> NoDup (clients (run evs s)).
Proof.
  revert s. induction evs as [|e evs IH]; intros s Hnd; [exact Hnd|].
  simpl. apply IH. rewrite clients_step.
  destruct e; auto using NoDup_set_add, NoDup_set_delete.
Qed.

Lemma live_after_step c s e :
  bool_decide (c ∈ clients (step s e))
  = live_after c (bool_decide (c ∈ clients s)) e.
Proof.
  rewrite clients_step. destruct e as [ws ?|? ? ?|ws|ws ?|? ?]; simpl;
    try reflexivity.
  - destruct (decide (ws = c)) as [->|Hne].
    + apply bool_decide_eq_true. apply elem_of_set_add. now left.
    + apply bool_decide_ext. rewrite elem_of_set_add. split; [|auto].
      intros [->|]; [congruence|assumption].
  - destruct (decide (ws = c)) as [->|Hne].
    + apply bool_decide_eq_false. rewrite elem_of_set_delete. tauto.
    + apply bool_decide_ext. rewrite elem_of_set_delete. split; [tauto|].
      intros Hc; split; [congruence|assumption].
  - destruct (decide (ws = c)) as [->|Hne].
    + apply bool_decide_eq_false. rewrite elem_of_set_delete. tauto.
    + apply bool_decide_ext. rewrite elem_of_set_delete. split; [tauto|].
      intros Hc; split; [congruence|assumption].
Qed.

Lemma registry_live_from c evs s :
  c ∈ clients (run evs s)
  <-> foldl (live_after c) (bool_decide (c ∈ clients s)) evs = true.
Proof.
  revert s. induction evs as [|e evs IH]; intros s; simpl.
  - now rewrite bool_decide_eq_true.
  - rewrite IH. now rewrite live_after_step.
Qed.

(** What one event adds to the send log. *)
Lemma sent_step s e :
  exists new,
    sent (step s e) = sent s ++ new /\
    forall c, c ∈ targets new -> c ∈ clients s \/ accepts c e = true.
Proof.
  destruct e as [ws now|ws data now|ws|ws msg|ws r]; simpl.
  - exists [(ws, JSON_stringify (welcome now))]. split; [reflexivity|].
    intros c Hc. right. apply list_elem_of_singleton in Hc. simpl in Hc.
    now apply bool_decide_eq_true.
  - destruct (on_message_frame ws data now s) as (_ & _ & new & Hs & Hn).
    exists new. split; [exact Hs|]. intros c Hc. left. now apply Hn.
  - exists []. split; [now rewrite app_nil_r|]. intros c Hc. inversion Hc.
  - exists []. split; [now rewrite app_nil_r|]. intros c Hc. inversion Hc.
  - exists []. split; [now rewrite app_nil_r|]. intros c Hc. inversion Hc.
Qed.

(** A connection that is not registered and is not accepted again gets no
    send, whatever happens. *)
Lemma absent_gets_nothing c evs s :
  c ∉ clients s ->
  Forall (fun e => accepts c e = false) evs ->
  (c ∉ clients (run evs s)) /\
  exists new, sent (run evs s) = sent s ++ new /\ (c ∉ targets new).
Proof.
  revert s. induction evs as [|e evs IH]; intros s Hout Hev.
  - split; [exact Hout|]. exists []. split; [now rewrite app_nil_r|].
    intros Hc. inversion Hc.
  - apply Forall_cons in Hev as [He Hev]. simpl.
    assert (Hout' : c ∉ clients (step s e)).
    { intros Hin. apply (bool_decide_eq_true_2 _) in Hin.
      rewrite live_after_step in Hin.
      rewrite (bool_decide_eq_false_2 _ Hout) in Hin.
      destruct e as [ws ?|? ? ?|ws|ws ?|? ?]; simpl in *; try discriminate;
        destruct (decide (ws = c)) as [->|]; try discriminate.
      rewrite bool_decide_eq_true_2 in He by reflexivity. discriminate. }
    destruct (IH _ Hout' Hev) as (Hfin & new2 & Hs2 & Hn2).
    destruct (sent_step s e) as (new1 & Hs1 & Hn1).
    split; [exact Hfin|]. exists (new1 ++ new2). split.
    + rewrite Hs2, Hs1. now rewrite app_assoc.
    + unfold targets in *. rewrite fmap_app, elem_of_app. intros [Hc|Hc].
      * destruct (Hn1 c Hc) as [Hin|Hacc]; [now apply Hout|congruence].
      * now apply Hn2.
Qed.

Lemma sent_since_app s s' new :
  sent s' = sent s ++ new -> sent_since s s' = new.
Proof. intros Hs. unfold sent_since. rewrite Hs. now rewrite drop_app_length. Qed.

(** ** Handlers read the registry and the sockets, and append to the logs *)

Lemma step_frame s e :
  step s e =
    {| clients := clients (step (forget s) e);
       sockets := sockets (step (forget s) e);
       sent := sent s ++ sent (step (forget s) e);
       console := console s ++ console (step (forget s) e) |}.
Proof.
  destruct s as [cl so se co].
  destruct e as [ws now|ws data now|ws|ws msg|ws r]; simpl;
    try (unfold exec; simpl; unfold log, send, with_clients, set_ready;
         simpl; rewrite ?app_nil_r, <- ?app_assoc; reflexivity).
  unfold exec, on_message, bind, modify, try_catch, lift, parse.
  destruct (JSON_parse data) as [v|]; [destruct v|]; simpl;
    rewrite ?broadcast_run; unfold deliver, log; simpl;
    rewrite ?app_nil_r, <- ?app_assoc; reflexivity.
Qed.

Lemma forget_step s e : forget (step s e) = forget (step (forget s) e).
Proof. rewrite step_frame. reflexivity. Qed.

Lemma run_frame evs s :
  run evs s =
    {| clients := clients (run evs (forget s));
       sockets := sockets (run evs (forget s));
       sent := sent s ++ sent (run evs (forget s));
       console := console s ++ console (run evs (forget s)) |}.
Proof.
  revert s. induction evs as [|e evs IH]; intros s.
  - destruct s; simpl. now rewrite !app_nil_r.
  - simpl. rewrite (IH (step s e)), (IH (step (forget s) e)).
    rewrite <- forget_step. simpl.
    pose proof (f_equal sent (step_frame s e)) as Hs.
    pose proof (f_equal console (step_frame s e)) as Hc.
    simpl in Hs, Hc. rewrite Hs, Hc. now rewrite <- !app_assoc.
Qed.

(** What a run adds to the send log is decided by the registry and the
    sockets it starts from. *)
Lemma sent_since_run evs s :
  sent_since s (run evs s) = sent (run evs (forget s)).
Proof. apply sent_since_app. now rewrite run_frame at 1. Qed.

Lemma run_forget evs s1 s2 :
  forget s1 = forget s2 ->
  clients (run evs s1) = clients (run evs s2) /\
  sockets (run evs s1) = sockets (run evs s2).
Proof.
  intros Hf. rewrite (run_frame evs s1), (run_frame evs s2). simpl.
  now rewrite Hf.
Qed.

(** No payload, whatever it is, removes a connection, touches a socket or
    changes what later events send. *)
Lemma payload_leaves_later_traffic_alone ws data now s later :
  let s' := step s (Inbound ws data now) in
  clients s' = clients s /\
  sockets s' = sockets s /\
  sent_since s' (run later s') = sent_since s (run later s).
Proof.
  intros s'. subst s'.
  destruct (on_message_frame ws data now s) as (Hc & Hs & _).
  split; [exact Hc|]. split; [exact Hs|].
  rewrite !sent_since_run. f_equal. f_equal.
  unfold forget. simpl. now rewrite Hc, Hs.
Qed.

Lemma on_message_sent_since ws data now s fields :
  JSON_parse data = Some (VObj fields) ->
  sent_since s (exec (on_message ws data now) s)
  = deliveries (VObj (obj_set "timestamp" (VStr now) fields)) s.
Proof.
  intros Hp. apply sent_since_app. unfold exec.
  rewrite (on_message_object _ _ _ _ _ Hp). reflexivity.
Qed.

Lemma targets_deliveries messageData s c :
  c ∈ targets (deliveries messageData s)
  <-> c ∈ clients s /\ is_open s c = true.
Proof.
  unfold targets, deliveries. rewrite <- list_fmap_compose.
  rewrite list_elem_of_fmap. split.
  - intros (x & -> & Hx). apply list_elem_of_filter in Hx as [Ho Hx].
    split; [exact Hx|]. now apply Is_true_true.
  - intros [Hc Ho]. exists c. split; [reflexivity|].
    apply list_elem_of_filter. split; [now apply Is_true_true|exact Hc].
Qed.

Lemma deliveries_text messageData s c t :
  (c, t) ∈ deliveries messageData s -> t = JSON_stringify messageData.
Proof.
  unfold deliveries. rewrite list_elem_of_fmap. now intros (x & [= -> ->] & _).
Qed.

Lemma deliveries_NoDup messageData s :
  NoDup (clients s) -> NoDup (targets (deliveries messageData s)).
Proof.
  intros Hnd. unfold targets, deliveries. rewrite <- list_fmap_compose.
  rewrite list_fmap_id. now apply NoDup_filter.
Qed.

(** Claim C1, as the relay has it: a payload that parses to a Message whose
    kind is [register], or any kind other than [message], is accepted and
    rebroadcast like a chat message. The handler does not look at the kind:
    it stamps the Message and sends it to every registered connection that
    is open. (It is the receiving session that drops a [register]
    Message.) *)
Theorem other_kinds_are_rebroadcast ws data now s fields :
  JSON_parse data = Some (VObj fields) ->
  strict_eq_str (obj_get "type" fields) "message" = false ->
  let stamped := VObj (obj_set "timestamp" (VStr now) fields) in
  let s' := exec (on_message ws data now) s in
  outcome (on_message ws data now) s = Normal tt /\
  clients s' = clients s /\
  sockets s' = sockets s /\
  sent_since s s' = deliveries stamped s /\
  (forall c, c ∈ targets (sent_since s s')
             <-> c ∈ clients s /\ is_open s c = true).
Proof.
  intros Hp _ stamped s'. subst stamped s'.
  rewrite (on_message_sent_since _ _ _ _ _ Hp).
  split; [apply (handlers_complete ws data now "" s)|].
  unfold exec. rewrite (on_message_object _ _ _ _ _ Hp). simpl.
  split; [reflexivity|]. split; [reflexivity|]. split; [reflexivity|].
  intros c. apply targets_deliveries.
Qed.

(** Claim C2: a payload that parses to a Message of kind [message] is
    stamped and sent once to each connection that is in the registry and
    open at that moment, to no other connection, and to the originating
    connection like to any other. *)
Theorem message_reaches_the_open_connections ws data now s fields :
  JSON_parse data = Some (VObj fields) ->
  strict_eq_str (obj_get "type" fields) "message" = true ->
  let stamped := VObj (obj_set "timestamp" (VStr now) fields) in
  let s' := exec (on_message ws data now) s in
  prop stamped "timestamp" = Normal (VStr now) /\
  sent_since s s' = deliveries stamped s /\
  (forall c, c ∈ targets (sent_since s s')
             <-> c ∈ clients s /\ is_open s c = true) /\
  (forall c t, (c, t) ∈ sent_since s s' -> t = JSON_stringify stamped) /\
  (NoDup (clients s) -> NoDup (targets (sent_since s s'))) /\
  (ws ∈ clients s -> is_open s ws = true ->
   (ws, JSON_stringify stamped) ∈ sent_since s s') /\
  clients s' = clients s.
Proof.
  intros Hp _ stamped s'. subst stamped s'.
  rewrite (on_message_sent_since _ _ _ _ _ Hp).
  split; [simpl; now rewrite obj_get_set_eq|].
  split; [reflexivity|].
  split; [intros c; apply targets_deliveries|].
  split; [intros c t; apply deliveries_text|].
  split; [apply deliveries_NoDup|].
  split.
  - intros Hin Ho. unfold deliveries. apply list_elem_of_fmap.
    exists ws. split; [reflexivity|]. apply list_elem_of_filter.
    split; [now apply Is_true_true|exact Hin].
  - apply on_message_frame.
Qed.

(** Claim C3: every Message the relay broadcasts carries the relay's
    receipt time. The handler writes [timestamp] before the loop, so the
    sends of the broadcast are, for every registered connection that is
    open, the text of one and the same Message, whose [timestamp] is the
    relay's and whose other fields are the client's. A payload that differs
    in the [timestamp] the client supplied (or supplied none) produces the
    same sends; and a receiver whose [JSON.parse] reads the text back finds
    the relay's time in it. *)
Theorem broadcast_carries_the_relay_time ws data now s fields :
  JSON_parse data = Some (VObj fields) ->
  let stamped := obj_set "timestamp" (VStr now) fields in
  let s' := exec (on_message ws data now) s in
  sent_since s s' = deliveries (VObj stamped) s /\
  (forall c, c ∈ clients s -> is_open s c = true ->
             (c, JSON_stringify (VObj stamped)) ∈ sent_since s s') /\
  (forall c t, (c, t) ∈ sent_since s s' -> t = JSON_stringify (VObj stamped)) /\
  obj_get "timestamp" stamped = VStr now /\
  (forall k, k <> "timestamp" -> obj_get k stamped = obj_get k fields) /\
  (forall supplied data',
     JSON_parse data' = Some (VObj (obj_set "timestamp" supplied fields)) ->
     sent_since s (exec (on_message ws data' now) s) = sent_since s s') /\
  (JSON_parse (JSON_stringify (VObj stamped)) = Some (VObj stamped) ->
   forall c t, (c, t) ∈ sent_since s s' ->
     exists v, parse t = Normal v /\ prop v "timestamp" = Normal (VStr now)).
Proof.
  intros Hp stamped s'. subst stamped s'.
  rewrite (on_message_sent_since _ _ _ _ _ Hp).
  split; [reflexivity|].
  split.
  { intros c Hc Ho. unfold deliveries. apply list_elem_of_fmap.
    exists c. split; [reflexivity|]. apply list_elem_of_filter.
    split; [now apply Is_true_true|exact Hc]. }
  split; [intros c t; apply deliveries_text|].
  split; [apply obj_get_set_eq|].
  split; [intros k Hk; apply obj_get_set_ne; congruence|].
  split.
  { intros supplied data' Hp'.
    rewrite (on_message_sent_since _ _ _ _ _ Hp'). now rewrite obj_set_set. }
  intros Hback c t Hin. apply deliveries_text in Hin. subst t.
  exists (VObj (obj_set "timestamp" (VStr now) fields)). split.
  - unfold parse. now rewrite Hback.
  - simpl. now rewrite obj_get_set_eq.
Qed.

(** Claim C6: after any history of events a connection is in the registry
    exactly when it was accepted and has neither closed nor errored since.
    The ['close'] and ['error'] handlers remove the connection whatever the
    state, removing one that is absent changes nothing, and once a
    connection is removed nothing is sent to it for as long as it is not
    accepted again. *)
Theorem registry_holds_the_live_connections evs ws message later :
  let s := run evs initial in
  let closed := step s (Closed ws) in
  let errored := step s (Errored ws message) in
  (ws ∈ clients s <-> live ws evs = true) /\
  NoDup (clients s) /\
  (ws ∉ clients (exec (on_close ws) s)) /\
  (ws ∉ clients (exec (on_error ws message) s)) /\
  (ws ∉ clients s ->
   clients (exec (on_close ws) s) = clients s /\
   clients (exec (on_error ws message) s) = clients s) /\
  (Forall (fun e => accepts ws e = false) later ->
   (ws ∉ targets (sent_since closed (run later closed))) /\
   (ws ∉ targets (sent_since errored (run later errored)))).
Proof.
  intros s closed errored.
  assert (Hc : ws ∉ clients closed).
  { unfold closed. rewrite clients_step, elem_of_set_delete. tauto. }
  assert (He : ws ∉ clients errored).
  { unfold errored. rewrite clients_step, elem_of_set_delete. tauto. }
  split; [apply (registry_live_from ws evs initial)|].
  split; [apply registry_NoDup; constructor|].
  split; [simpl; rewrite elem_of_set_delete; tauto|].
  split; [simpl; rewrite elem_of_set_delete; tauto|].
  split; [intros Hout; simpl; now rewrite set_delete_absent|].
  intros Hl. split.
  - destruct (absent_gets_nothing ws later closed Hc Hl) as (_ & new & Hs & Hn).
    now rewrite (sent_since_app _ _ _ Hs).
  - destruct (absent_gets_nothing ws later errored He Hl) as (_ & new & Hs & Hn).
    now rewrite (sent_since_app _ _ _ Hs).
Qed.

End WithCodec.

Import Sample.

(** Claim C1 does not hold as stated. With connections 1 and 2 registered
    and open, connection 1 sends a Message of kind [register]; the relay
    stamps it and sends it to both connections. *)
Lemma register_is_rebroadcast :
  JSON_parse registration = Some (VObj registration_fields) /\
  strict_eq_str (obj_get "type" registration_fields) "register" = true /\
  sent_since two_clients
    (step two_clients (Inbound 1 registration "09:05"))
  = [(1, Wire.text "{'type':'register','username':'Bob','timestamp':'09:05'}");
     (2, Wire.text "{'type':'register','username':'Bob','timestamp':'09:05'}")].
Proof. vm_compute. repeat split. Qed.

Lemma other_kinds_are_rebroadcast_witness :
  JSON_parse registration = Some (VObj registration_fields) /\
  strict_eq_str (obj_get "type" registration_fields) "message" = false /\
  sent_since two_clients
    (exec (on_message 1 registration "09:05") two_clients)
  = deliveries
      (VObj (obj_set "timestamp" (VStr "09:05") registration_fields))
      two_clients.
Proof.
  assert (Hp : JSON_parse registration = Some (VObj registration_fields))
    by (vm_compute; reflexivity).
  assert (Hk : strict_eq_str (obj_get "type" registration_fields) "message"
               = false) by reflexivity.
  split; [exact Hp|]. split; [exact Hk|].
  destruct (other_kinds_are_rebroadcast 1 registration "09:05" two_clients
              registration_fields Hp Hk) as (_ & _ & _ & Hs & _).
  exact Hs.
Defined.

Lemma message_reaches_the_open_connections_witness :
  JSON_parse hello = Some (VObj hello_fields) /\
  strict_eq_str (obj_get "type" hello_fields) "message" = true /\
  1 ∈ clients one_closing /\
  is_open one_closing 1 = true /\
  (1, JSON_stringify
        (VObj (obj_set "timestamp" (VStr "09:05") hello_fields)))
    ∈ sent_since one_closing
        (exec (on_message 1 hello "09:05") one_closing).
Proof.
  assert (Hp : JSON_parse hello = Some (VObj hello_fields))
    by (vm_compute; reflexivity).
  assert (Hk : strict_eq_str (obj_get "type" hello_fields) "message" = true)
    by reflexivity.
  assert (Hin : 1 ∈ clients one_closing) by (vm_compute; left).
  assert (Ho : is_open one_closing 1 = true) by (vm_compute; reflexivity).
  split; [exact Hp|]. split; [exact Hk|]. split; [exact Hin|].
  split; [exact Ho|].
  destruct (message_reaches_the_open_connections 1 hello "09:05" one_closing
              hello_fields Hp Hk) as (_ & _ & _ & _ & _ & Hself & _).
  exact (Hself Hin Ho).
Defined.

Lemma broadcast_carries_the_relay_time_witness :
  JSON_parse hello = Some (VObj hello_fields) /\
  obj_get "timestamp" hello_fields = VStr "08:59" /\
  sent_since two_clients (exec (on_message 1 hello "09:05") two_clients)
  = [(1, Wire.text "{'type':'message','user':'Alice','message':'hi','timestamp':'09:05'}");
     (2, Wire.text "{'type':'message','user':'Alice','message':'hi','timestamp':'09:05'}")]
  /\
  (forall c t,
     (c, t) ∈ sent_since two_clients
                (exec (on_message 1 hello "09:05") two_clients) ->
     exists v, parse t = Normal v /\ prop v "timestamp" = Normal (VStr "09:05")).
Proof.
  assert (Hp : JSON_parse hello = Some (VObj hello_fields))
    by (vm_compute; reflexivity).
  assert (Hback :
            JSON_parse
              (JSON_stringify
                 (VObj (obj_set "timestamp" (VStr "09:05") hello_fields)))
            = Some (VObj (obj_set "timestamp" (VStr "09:05") hello_fields)))
    by (vm_compute; reflexivity).
  split; [exact Hp|]. split; [reflexivity|].
  destruct (broadcast_carries_the_relay_time 1 hello "09:05" two_clients
              hello_fields Hp) as (Hs & _ & _ & _ & _ & _ & Hread).
  split.
  - rewrite Hs. vm_compute. reflexivity.
  - exact (Hread Hback).
Defined.

(** A payload that is JSON but not a complete Message is not a parse
    failure for the relay: the empty object is stamped and relayed. *)
Example incomplete_message_is_relayed :
  sent_since two_clients (step two_clients (Inbound 1 "{}" "09:05"))
  = [(1, Wire.text "{'timestamp':'09:05'}");
     (2, Wire.text "{'timestamp':'09:05'}")].
Proof. vm_compute. reflexivity. Qed.

(** A payload that is JSON but not an object cannot hold a [timestamp]:
    numbers, strings, booleans and arrays are relayed as they came. *)
Example non_record_payload_is_relayed_unstamped :
  sent_since two_clients (step two_clients (Inbound 1 "[1,2]" "09:05"))
  = [(1, "[1,2]"); (2, "[1,2]")] /\
  sent_since two_clients (step two_clients (Inbound 1 "42" "09:05"))
  = [(1, "42"); (2, "42")] /\
  sent_since two_clients (step two_clients (Inbound 1 "null" "09:05")) = [].
Proof. vm_compute. repeat split. Qed.

(** The codec reads back what it prints. *)
Example stamped_message_round_trip :
  JSON_parse
    (JSON_stringify (VObj (obj_set "timestamp" (VStr "09:05") hello_fields)))
  = Some (VObj (obj_set "timestamp" (VStr "09:05") hello_fields)).
Proof. vm_compute. reflexivity. Qed.

Lemma registry_holds_the_live_connections_witness :
  (Forall (fun e => accepts 2 e = false) [Inbound 1 hello "09:05"] /\
   (2 ∉ targets
          (sent_since (step two_clients (Closed 2))
             (run [Inbound 1 hello "09:05"] (step two_clients (Closed 2))))))
  /\
  ((3 ∉ clients two_clients) /\
   clients (exec (on_close 3) two_clients) = clients two_clients).
Proof.
  assert (Hl : Forall (fun e => accepts 2 e = false) [Inbound 1 hello "09:05"])
    by (repeat constructor).
  assert (Hout : 3 ∉ clients two_clients).
  { vm_compute. intros Hin. inversion Hin as [|? ? ? Hin']; subst.
    inversion Hin' as [|? ? ? Hin'']; subst. inversion Hin''. }
  split.
  - split; [exact Hl|].
    destruct (registry_holds_the_live_connections
                [Accept 1 "09:00"; Accept 2 "09:01"] 2 "reset"
                [Inbound 1 hello "09:05"]) as (_ & _ & _ & _ & _ & Hlater).
    exact (proj1 (Hlater Hl)).
  - split; [exact Hout|].
    destruct (registry_holds_the_live_connections
                [Accept 1 "09:00"; Accept 2 "09:01"] 3 "reset" [])
      as (_ & _ & _ & _ & Habsent & _).
    exact (proj1 (Habsent Hout)).
Defined.

End RelayFacts.

(* ===================================================================== *)
(** * The session: classification, sending and leaving *)
(* ===================================================================== *)

Module SessionFacts.
Import Client.
#[local] Open Scope list_scope.

(** Case analysis on the tests a handler makes. *)
Ltac branches :=
  repeat (simpl;
          match goal with
          | |- context [if ?b then _ else _] => destruct b eqn:?
          end);
  simpl.

Ltac open_handler :=
  unfold exec, outcome, onmessage, bind, modify, try_catch, lift, parse,
    gets, ret, prop.

Ltac open_session :=
  cbv beta iota zeta delta
    [act exec outcome bind modify gets ret commit effect
     effect_cleanup logout joinChat sendMessage onopen onclose onerror
     on_join_screen can_type_message current_is_open session_step mount];
  simpl.

Ltac split_tests :=
  repeat (match goal with
          | |- context [bool_decide ?P] => destruct (bool_decide P) eqn:?
          | |- context [decide ?P] => destruct (decide P)
          | |- context [if ?b then _ else _] => destruct b eqn:?
          | |- context [match ?x with _ => _ end] => destruct x eqn:?
          end; simpl).

Section WithCodec.
Context `{Codec}.

Lemma strict_eq_str_true v s : strict_eq_str v s = true <-> v = VStr s.
Proof.
  destruct v; simpl; try (split; [discriminate|congruence]).
  destruct (String.eqb_spec s0 s); split; congruence.
Qed.

Lemma strict_eq_str_false v s : strict_eq_str v s = false <-> v <> VStr s.
Proof.
  rewrite <- strict_eq_str_true. destruct (strict_eq_str v s); split; congruence.
Qed.

Lemma truthy_undefined_or_empty v :
  v = VUndefined \/ v = VStr "" -> truthy v = false.
Proof. intros [->| ->]; reflexivity. Qed.

Lemma truthy_string s : truthy (VStr s) = true <-> s <> "".
Proof.
  simpl. destruct (String.eqb_spec s ""); split; simpl; congruence.
Qed.

(** [onmessage] never ends by throwing and touches nothing but the message
    sequence and the reports. *)
Lemma onmessage_frame me data s :
  let s' := exec (onmessage me data) s in
  outcome (onmessage me data) s = Normal tt /\
  inputMessage s' = inputMessage s /\ username s' = username s /\
  hasJoined s' = hasJoined s /\ connectionStatus s' = connectionStatus s /\
  ws_current s' = ws_current s /\ localStorage s' = localStorage s.
Proof.
  open_handler. destruct (JSON_parse data) as [[]|]; branches; auto 10.
Qed.

Lemma onmessage_quiet me data s :
  session_quiet (exec (onmessage me data) s)
  = session_quiet (exec (onmessage me data) (session_quiet s)).
Proof.
  open_handler. destruct (JSON_parse data) as [[]|]; branches; reflexivity.
Qed.

(** A payload on which the [try] block throws is reported and dropped. *)
Lemma onmessage_thrown me data s :
  JSON_parse data = None \/ JSON_parse data = Some VNull ->
  exists lines,
    exec (onmessage me data) s
    = {| messages := messages s; inputMessage := inputMessage s;
         username := username s; hasJoined := hasJoined s;
         connectionStatus := connectionStatus s; ws_current := ws_current s;
         localStorage := localStorage s;
         reports := reports s ++ NoteReceived data :: lines;
         replaced := replaced s |}.
Proof.
  intros [Hp|Hp]; open_handler; rewrite Hp; simpl; unfold report; simpl;
    rewrite <- ?app_assoc; simpl; eauto.
Qed.

(** A payload that is neither a system nor a register message and carries a
    truthy [user] and a truthy [message] is appended with its tag. *)
Lemma onmessage_user_message me data fields s :
  JSON_parse data = Some (VObj fields) ->
  obj_get "type" fields <> VStr "system" ->
  obj_get "type" fields <> VStr "register" ->
  truthy (obj_get "user" fields) && truthy (obj_get "message" fields) = true ->
  messages (exec (onmessage me data) s) = messages s ++ [tagged me fields].
Proof.
  intros Hp Hsys Hreg Hboth. apply andb_true_iff in Hboth as [Hu Hm].
  apply strict_eq_str_false in Hsys, Hreg.
  open_handler. rewrite Hp. simpl. rewrite Hsys, Hreg, Hu, Hm. reflexivity.
Qed.

(** ... and one that lacks either is reported as unknown and dropped. *)
Lemma onmessage_unknown me data fields s :
  JSON_parse data = Some (VObj fields) ->
  obj_get "type" fields <> VStr "system" ->
  obj_get "type" fields <> VStr "register" ->
  truthy (obj_get "user" fields) && truthy (obj_get "message" fields) = false ->
  messages (exec (onmessage me data) s) = messages s /\
  reports (exec (onmessage me data) s)
  = reports s ++ [NoteReceived data; NoteParsed (VObj fields);
                  WarnUnknown (VObj fields)].
Proof.
  intros Hp Hsys Hreg Hboth.
  apply strict_eq_str_false in Hsys, Hreg.
  open_handler. rewrite Hp. simpl. rewrite Hsys, Hreg.
  destruct (truthy (obj_get "user" fields)) eqn:Hu; simpl in Hboth |- *.
  - rewrite Hboth. simpl. now rewrite <- !app_assoc.
  - rewrite Hu. simpl. now rewrite <- !app_assoc.
Qed.

Lemma unknown_format_object fields :
  unknown_format (VObj fields) = true <->
  obj_get "type" fields <> VStr "system" /\
  obj_get "type" fields <> VStr "register" /\
  truthy (obj_get "user" fields) && truthy (obj_get "message" fields) = false.
Proof.
  unfold unknown_format. simpl.
  rewrite !andb_true_iff, !negb_true_iff, !strict_eq_str_false. tauto.
Qed.

Lemma onmessage_unknown_format me data v s :
  JSON_parse data = Some v ->
  unknown_format v = true ->
  exec (onmessage me data) s
  = report (WarnUnknown v) (report (NoteParsed v) (report (NoteReceived data) s)).
Proof.
  intros Hp Hu. destruct v as [| | | | |items|fields];
    try discriminate; try (open_handler; rewrite Hp; reflexivity).
  apply unknown_format_object in Hu as (Hsys & Hreg & Hboth).
  apply strict_eq_str_false in Hsys, Hreg.
  open_handler. rewrite Hp. simpl. rewrite Hsys, Hreg.
  destruct (truthy (obj_get "user" fields)) eqn:Hu; simpl in Hboth |- *.
  - rewrite Hboth. reflexivity.
  - rewrite Hu. reflexivity.
Qed.

Lemma onmessage_unknown_quiet me data fields s :
  JSON_parse data = Some (VObj fields) ->
  obj_get "type" fields <> VStr "system" ->
  obj_get "type" fields <> VStr "register" ->
  truthy (obj_get "user" fields) && truthy (obj_get "message" fields) = false ->
  session_quiet (exec (onmessage me data) s) = session_quiet s.
Proof.
  intros Hp Hsys Hreg Hboth.
  apply strict_eq_str_false in Hsys, Hreg.
  open_handler. rewrite Hp. simpl. rewrite Hsys, Hreg.
  destruct (truthy (obj_get "user" fields)) eqn:Hu; simpl in Hboth |- *.
  - rewrite Hboth. reflexivity.
  - rewrite Hu. reflexivity.
Qed.

(** ** The invariant of the session *)

Lemma consistent_ext s s' :
  username s' = username s -> hasJoined s' = hasJoined s ->
  connectionStatus s' = connectionStatus s -> ws_current s' = ws_current s ->
  consistent s -> consistent s'.
Proof. unfold consistent. intros -> -> -> ->. exact id. Qed.

Lemma consistent_mount storage : consistent (mount storage).
Proof.
  open_session. split_tests; unfold consistent; simpl; intuition congruence.
Qed.

Lemma consistent_step s e : consistent s -> consistent (session_step s e).
Proof.
  destruct e; try
   (destruct s as [msgs input name joined st [[r out me]|] ls con old];
    destruct joined;
    open_session; split_tests;
    unfold consistent, ws_close, with_ready; simpl; try tauto;
    try (destruct r; simpl; intuition congruence);
    intuition congruence).
  intros Hs. simpl. destruct (ws_current s) as [w|] eqn:Hw; [|exact Hs].
  destruct (decide (readyState w = OPEN)); [|exact Hs].
  destruct (onmessage_frame (handler_username w) data s)
    as (_ & _ & Hu & Hj & Hc & Hws & _).
  now apply (consistent_ext s).
Qed.

Lemma consistent_run evs s : consistent s -> consistent (session_run evs s).
Proof.
  revert s. induction evs as [|e evs IH]; intros s Hs; [exact Hs|].
  simpl. apply IH. now apply consistent_step.
Qed.

(** ** The reports are write-only *)

Lemma session_step_quiet s e : session_quiet (session_step s e) = session_quiet (session_step (session_quiet s) e).
Proof.
  destruct e; try
   (destruct s as [msgs input name joined st [[r out me]|] ls con old];
    open_session; split_tests; reflexivity).
  simpl. destruct (ws_current s) as [w|]; [|reflexivity].
  destruct (decide (readyState w = OPEN)); [|reflexivity].
  apply onmessage_quiet.
Qed.

Lemma session_run_quiet evs s1 s2 :
  session_quiet s1 = session_quiet s2 -> session_quiet (session_run evs s1) = session_quiet (session_run evs s2).
Proof.
  revert s1 s2. induction evs as [|e evs IH]; intros s1 s2 Hq; [exact Hq|].
  simpl. apply IH. rewrite (session_step_quiet s1), (session_step_quiet s2). now rewrite Hq.
Qed.

(** ** Sending *)

Lemma sendMessage_blocked now s :
  trim (inputMessage s) = "" \/ current_is_open s = false ->
  outcome (sendMessage now) s = Normal tt /\
  messages (exec (sendMessage now) s) = messages s /\
  ws_current (exec (sendMessage now) s) = ws_current s /\
  connectionStatus (exec (sendMessage now) s) = connectionStatus s.
Proof.
  intros Hb. open_session.
  destruct (String.eqb_spec (trim (inputMessage s)) ""); simpl; [auto|].
  destruct Hb as [Hb|Hb]; [congruence|].
  unfold current_is_open in Hb. rewrite Hb. simpl. auto.
Qed.

Lemma sendMessage_sends now s :
  current_is_open s = true -> trim (inputMessage s) <> "" ->
  outcome (sendMessage now) s = Normal tt /\
  transmitted (exec (sendMessage now) s)
  = transmitted s
    ++ [JSON_stringify (outgoing_message (username s) (inputMessage s) now)] /\
  messages (exec (sendMessage now) s) = messages s /\
  inputMessage (exec (sendMessage now) s) = "".
Proof.
  intros Ho Ht. open_session.
  destruct (String.eqb_spec (trim (inputMessage s)) ""); [congruence|]. simpl.
  unfold current_is_open in Ho. rewrite Ho. simpl.
  unfold transmitted, current_is_open in *. simpl.
  destruct (ws_current s) as [w|]; [|discriminate]. simpl. auto.
Qed.

(** ** Leaving *)

Lemma ws_close_twice w : ws_close (ws_close w) = ws_close w.
Proof. destruct w as [[] out me]; reflexivity. Qed.

Lemma ws_close_closed w :
  readyState (ws_close w) = CLOSING \/ readyState (ws_close w) = CLOSED.
Proof. destruct w as [[] out me]; simpl; auto. Qed.

Lemma ws_close_CLOSED w :
  readyState (ws_close w) = CLOSED -> readyState w = CLOSED.
Proof. destruct w as [[] out me]; simpl; congruence. Qed.

Lemma logout_run s :
  logout s =
    ({| messages := []; inputMessage := inputMessage s; username := "";
        hasJoined := false; connectionStatus := connectionStatus s;
        ws_current := ws_close <$> ws_current s;
        localStorage :=
          delete "chatHasJoined" (delete "chatUsername" (localStorage s));
        reports := reports s; replaced := replaced s |},
     Normal tt).
Proof. destruct s as [? ? ? ? ? [w|] ? ? ?]; reflexivity. Qed.

Lemma logout_exec s :
  exec logout s =
    {| messages := []; inputMessage := inputMessage s; username := "";
       hasJoined := false; connectionStatus := connectionStatus s;
       ws_current := ws_close <$> ws_current s;
       localStorage :=
         delete "chatHasJoined" (delete "chatUsername" (localStorage s));
       reports := reports s; replaced := replaced s |}.
Proof. unfold exec. now rewrite logout_run. Qed.

Lemma logout_outcome s : outcome logout s = Normal tt.
Proof. unfold outcome. now rewrite logout_run. Qed.

Lemma logout_twice s : exec logout (exec logout s) = exec logout s.
Proof.
  unfold exec. rewrite !logout_run. simpl. f_equal.
  - destruct (ws_current s); simpl; [|reflexivity]. now rewrite ws_close_twice.
  - apply map_eq. intros k. rewrite !lookup_delete.
    repeat case_decide; reflexivity.
Qed.

Lemma act_logout_left s : hasJoined (act logout s) = false.
Proof.
  destruct s as [msgs input name joined st [[r out me]|] ls con old];
    open_session; split_tests; reflexivity.
Qed.

Lemma step_logout_twice s : session_step (session_step s Logout) Logout = session_step s Logout.
Proof.
  simpl. destruct (hasJoined s) eqn:Hj.
  - now rewrite act_logout_left.
  - now rewrite Hj.
Qed.

Lemma closed_after_logout s :
  consistent s -> connectionStatus (session_step (exec logout s) SocketClosed) = disconnected.
Proof.
  intros Hs. unfold exec. rewrite logout_run. simpl.
  unfold consistent in Hs. destruct (ws_current s) as [w|]; simpl.
  - destruct (decide (readyState (ws_close w) = CLOSED)) as [Hc|Hc];
      [|reflexivity].
    simpl. apply Hs. now apply ws_close_CLOSED.
  - exact Hs.
Qed.

Lemma act_sendMessage now s : act (sendMessage now) s = exec (sendMessage now) s.
Proof.
  destruct s as [msgs input name joined st [[r out me]|] ls con old];
    open_session; split_tests; try reflexivity;
    exfalso; match goal with
             | Hb : bool_decide _ = false |- _ =>
                 apply bool_decide_eq_false in Hb; apply Hb; now split
             end.
Qed.

(** ** The claims about the session *)

(** Claim C4: when a session, in any state the component can reach,
    receives on its open socket a Message of kind [message] (the handler
    comes to it for every kind but [system] and [register]) that has a
    [user] and a [message], it appends the Message tagged with [isMine],
    and [isMine] is the strict equality of the Message's [user] with the
    session's [username]: true when they are the same string, false for
    any other [user]. *)
Theorem user_message_is_tagged_by_identity storage evs w data fields :
  let s := session_run evs (mount storage) in
  ws_current s = Some w ->
  readyState w = OPEN ->
  JSON_parse data = Some (VObj fields) ->
  strict_eq_str (obj_get "type" fields) "system" = false ->
  strict_eq_str (obj_get "type" fields) "register" = false ->
  truthy (obj_get "user" fields) && truthy (obj_get "message" fields) = true ->
  let isSelf := strict_eq_str (obj_get "user" fields) (username s) in
  messages (session_step s (SocketMessage data))
  = messages s ++ [VObj (obj_set "isMine" (VBool isSelf) fields)] /\
  (obj_get "user" fields = VStr (username s) -> isSelf = true) /\
  (obj_get "user" fields <> VStr (username s) -> isSelf = false).
Proof.
  intros s Hw Ho Hp Hsys Hreg Hboth isSelf. subst isSelf.
  assert (Hs : consistent s) by apply consistent_run, consistent_mount.
  split; [|split].
  - simpl. rewrite Hw. destruct (decide (readyState w = OPEN)); [|congruence].
    apply strict_eq_str_false in Hsys, Hreg.
    rewrite (onmessage_user_message _ _ _ _ Hp Hsys Hreg Hboth).
    unfold consistent in Hs. rewrite Hw in Hs.
    destruct Hs as [_ Hs]. destruct (Hs (or_intror Ho)) as [_ ->].
    reflexivity.
  - apply strict_eq_str_true.
  - apply strict_eq_str_false.
Qed.

(** Claim C8, as the session has it: [sendMessage] trims the text of the
    message field. When the trimmed text is not empty and the socket is
    open, it builds a Message of kind [message] with the session's
    [username], the trimmed text as body and the client's time, hands
    exactly that Message to the socket, and clears the field. *)
Theorem send_transmits_the_trimmed_text now s :
  current_is_open s = true ->
  truthy (VStr (trim (inputMessage s))) = true ->
  let messageData := outgoing_message (username s) (inputMessage s) now in
  prop messageData "type" = Normal (VStr "message") /\
  prop messageData "user" = Normal (VStr (username s)) /\
  prop messageData "message" = Normal (VStr (trim (inputMessage s))) /\
  prop messageData "timestamp" = Normal (VStr now) /\
  outcome (sendMessage now) s = Normal tt /\
  transmitted (exec (sendMessage now) s)
  = transmitted s ++ [JSON_stringify messageData] /\
  transmitted (act (sendMessage now) s)
  = transmitted s ++ [JSON_stringify messageData] /\
  messages (exec (sendMessage now) s) = messages s /\
  inputMessage (exec (sendMessage now) s) = "".
Proof.
  intros Ho Ht messageData. apply truthy_string in Ht.
  destruct (sendMessage_sends now s Ho Ht) as (Hn & Hs & Hm & Hi).
  rewrite act_sendMessage. repeat split; assumption.
Qed.

(** Claim C9: sending with an empty text, or while not connected, transmits
    nothing and leaves the message sequence as it was. [sendMessage]
    returns before the send when the trimmed text is empty or the socket is
    not open, and the Send control does not reach it while
    [connectionStatus] is not [connected]. *)
Theorem blocked_send_changes_nothing now s :
  trim (inputMessage s) = "" \/ current_is_open s = false \/
  connectionStatus s <> connected ->
  transmitted (session_step s (Send now)) = transmitted s /\
  messages (session_step s (Send now)) = messages s /\
  length (messages (session_step s (Send now))) = length (messages s) /\
  (trim (inputMessage s) = "" \/ current_is_open s = false ->
   outcome (sendMessage now) s = Normal tt /\
   transmitted (exec (sendMessage now) s) = transmitted s /\
   messages (exec (sendMessage now) s) = messages s).
Proof.
  intros Hb.
  assert (Hf : trim (inputMessage s) = "" \/ current_is_open s = false ->
               outcome (sendMessage now) s = Normal tt /\
               transmitted (exec (sendMessage now) s) = transmitted s /\
               messages (exec (sendMessage now) s) = messages s).
  { intros Hb'. destruct (sendMessage_blocked now s Hb') as (Hn & Hm & Hw & _).
    unfold transmitted. rewrite Hw. auto. }
  assert (Hstep : transmitted (session_step s (Send now)) = transmitted s /\
                  messages (session_step s (Send now)) = messages s).
  { simpl. unfold can_type_message.
    destruct (hasJoined s); simpl; [|auto].
    case_bool_decide as Hc; [|auto].
    rewrite act_sendMessage. apply Hf.
    destruct Hb as [Hb|[Hb|Hb]]; [auto|auto|congruence]. }
  destruct Hstep as [Ht Hm]. repeat split; try assumption.
  - now rewrite Hm.
  - now apply Hf.
  - now apply Hf.
  - now apply Hf.
Qed.

(** Claim C10, as the session has it: a payload that is neither a system
    nor a register message is appended only when its [user] and its
    [message] are both truthy. If either is missing or is the empty string
    the payload is reported as unknown and the session, its sequence
    included, is what it was. For a [user] and a [message] that are
    strings, truthy means not empty, and a payload with both is appended.
    The test is the truthiness of the two fields, not their type. *)
Theorem user_message_needs_truthy_user_and_body me data fields s :
  JSON_parse data = Some (VObj fields) ->
  strict_eq_str (obj_get "type" fields) "system" = false ->
  strict_eq_str (obj_get "type" fields) "register" = false ->
  let user := obj_get "user" fields in
  let body := obj_get "message" fields in
  let s' := exec (onmessage me data) s in
  (messages s' <> messages s -> truthy user = true /\ truthy body = true) /\
  (truthy user = false \/ truthy body = false ->
   messages s' = messages s /\
   session_quiet s' = session_quiet s /\
   reports s' = reports s ++ [NoteReceived data; NoteParsed (VObj fields);
                              WarnUnknown (VObj fields)]) /\
  (user = VUndefined \/ user = VStr "" \/
   body = VUndefined \/ body = VStr "" ->
   truthy user = false \/ truthy body = false) /\
  (forall u b, user = VStr u -> body = VStr b ->
     (truthy user = true /\ truthy body = true <-> u <> "" /\ b <> "") /\
     (u <> "" -> b <> "" -> messages s' = messages s ++ [tagged me fields])).
Proof.
  intros Hp Hsys Hreg user body s'. subst user body s'.
  apply strict_eq_str_false in Hsys, Hreg.
  assert (Hdrop : truthy (obj_get "user" fields) = false \/
                  truthy (obj_get "message" fields) = false ->
                  truthy (obj_get "user" fields)
                  && truthy (obj_get "message" fields) = false).
  { intros [->| ->]; [reflexivity|apply andb_false_r]. }
  split; [|split; [|split]].
  - intros Hchanged.
    destruct (truthy (obj_get "user" fields)) eqn:Hu;
      destruct (truthy (obj_get "message" fields)) eqn:Hb; auto;
      exfalso; apply Hchanged;
      apply (onmessage_unknown me data fields s Hp Hsys Hreg);
      rewrite Hu, Hb; reflexivity.
  - intros Hf. apply Hdrop in Hf.
    destruct (onmessage_unknown me data fields s Hp Hsys Hreg Hf) as [Hm Hr].
    split; [exact Hm|]. split; [|exact Hr].
    now apply (onmessage_unknown_quiet me data fields s Hp).
  - intros [Hu|[Hu|[Hb|Hb]]]; rewrite ?Hu, ?Hb; simpl; auto.
  - intros u b Hu Hb. split.
    + rewrite Hu, Hb, !truthy_string. tauto.
    + intros Hne Hnb. apply (onmessage_user_message me data fields s Hp Hsys Hreg).
      rewrite Hu, Hb. apply andb_true_iff. now rewrite !truthy_string.
Qed.

End WithCodec.

Import Sample.

Lemma user_message_is_tagged_by_identity_witness :
  JSON_parse hello = Some (VObj hello_fields) /\
  messages (session_step alice (SocketMessage hello))
  = messages alice
    ++ [VObj (obj_set "isMine"
                (VBool (strict_eq_str (obj_get "user" hello_fields)
                          (username alice))) hello_fields)] /\
  messages (session_step bob (SocketMessage hello))
  = messages bob
    ++ [VObj (obj_set "isMine"
                (VBool (strict_eq_str (obj_get "user" hello_fields)
                          (username bob))) hello_fields)].
Proof.
  assert (Hp : JSON_parse hello = Some (VObj hello_fields))
    by (vm_compute; reflexivity).
  split; [exact Hp|]. split.
  - exact (proj1 (user_message_is_tagged_by_identity ∅
                    [TypeName "Alice"; Join; SocketOpened]
                    {| readyState := OPEN; outgoing := [];
                       handler_username := "Alice" |} hello hello_fields
                    eq_refl eq_refl Hp eq_refl eq_refl eq_refl)).
  - exact (proj1 (user_message_is_tagged_by_identity ∅
                    [TypeName "Bob"; Join; SocketOpened]
                    {| readyState := OPEN; outgoing := [];
                       handler_username := "Bob" |} hello hello_fields
                    eq_refl eq_refl Hp eq_refl eq_refl eq_refl)).
Defined.

(** The end-to-end scenario of the two sessions: Alice's copy of her
    message is tagged as her own, Bob's copy is not. *)
Example alice_and_bob_classify :
  messages (session_step alice (SocketMessage hello))
  = [VObj (hello_fields ++ [("isMine", VBool true)])] /\
  messages (session_step bob (SocketMessage hello))
  = [VObj (hello_fields ++ [("isMine", VBool false)])].
Proof. vm_compute. split; reflexivity. Qed.

(** What the relay made of an incomplete Message, and a [register]
    Message, are reported and not appended. *)
Example incomplete_and_register_messages_are_not_appended :
  messages (session_step alice (SocketMessage (Wire.text "{'timestamp':'09:05'}"))) = [] /\
  messages (session_step alice (SocketMessage registration)) = [] /\
  messages (session_step alice (SocketMessage "42")) = [] /\
  messages (session_step alice (SocketMessage garbage)) = [].
Proof. vm_compute. repeat split. Qed.

(** Claim C8 does not hold as stated. In a connected session a text of
    three spaces is not empty and nothing is transmitted; for the text
    [" hi "] the body of the transmitted Message is ["hi"]. *)
Lemma untrimmed_text_is_not_what_is_sent :
  connectionStatus (typing "   " alice) = connected /\
  current_is_open (typing "   " alice) = true /\
  inputMessage (typing "   " alice) = "   " /\
  transmitted (session_step (typing "   " alice) (Send "09:10")) = [] /\
  inputMessage (typing " hi " alice) = " hi " /\
  transmitted (session_step (typing " hi " alice) (Send "09:10"))
  = [Wire.text
       "{'type':'message','user':'Alice','message':'hi','timestamp':'09:10'}"].
Proof. vm_compute. repeat split. Qed.

Lemma send_transmits_the_trimmed_text_witness :
  current_is_open (typing " hi " alice) = true /\
  truthy (VStr (trim (inputMessage (typing " hi " alice)))) = true /\
  transmitted (exec (sendMessage "09:10") (typing " hi " alice))
  = transmitted (typing " hi " alice)
    ++ [JSON_stringify (outgoing_message "Alice" " hi " "09:10")].
Proof.
  assert (Ho : current_is_open (typing " hi " alice) = true)
    by (vm_compute; reflexivity).
  assert (Ht : truthy (VStr (trim (inputMessage (typing " hi " alice))))
               = true) by (vm_compute; reflexivity).
  split; [exact Ho|]. split; [exact Ht|].
  destruct (send_transmits_the_trimmed_text "09:10" (typing " hi " alice)
              Ho Ht) as (_ & _ & _ & _ & _ & Hs & _).
  exact Hs.
Defined.

Lemma blocked_send_changes_nothing_witness :
  trim (inputMessage (typing "   " alice)) = "" /\
  transmitted (session_step (typing "   " alice) (Send "09:10"))
  = transmitted (typing "   " alice) /\
  length (messages (session_step (typing "   " alice) (Send "09:10")))
  = length (messages (typing "   " alice)).
Proof.
  assert (Hb : trim (inputMessage (typing "   " alice)) = "")
    by (vm_compute; reflexivity).
  split; [exact Hb|].
  destruct (blocked_send_changes_nothing "09:10" (typing "   " alice)
              (or_introl Hb)) as (Ht & _ & Hl & _).
  split; [exact Ht|exact Hl].
Defined.

(** Claim C10 does not hold as stated. The [user] of this payload is
    [true] and its [message] is an array: neither is a string, and the
    session appends the payload. *)
Lemma truthy_fields_that_are_not_strings_are_appended :
  JSON_parse untyped = Some (VObj untyped_fields) /\
  obj_get "user" untyped_fields = VBool true /\
  obj_get "message" untyped_fields = VArr [VStr "hi"] /\
  messages alice = [] /\
  messages (session_step alice (SocketMessage untyped))
  = [VObj (untyped_fields ++ [("isMine", VBool false)])].
Proof. vm_compute. repeat split. Qed.

Lemma user_message_needs_truthy_user_and_body_witness :
  JSON_parse anonymous
  = Some (VObj [("type", VStr "message"); ("message", VStr "hi")]) /\
  messages (exec (onmessage "Alice" anonymous) alice) = messages alice /\
  reports (exec (onmessage "Alice" anonymous) alice)
  = reports alice
    ++ [NoteReceived anonymous;
        NoteParsed (VObj [("type", VStr "message"); ("message", VStr "hi")]);
        WarnUnknown (VObj [("type", VStr "message"); ("message", VStr "hi")])].
Proof.
  assert (Hp : JSON_parse anonymous
               = Some (VObj [("type", VStr "message"); ("message", VStr "hi")]))
    by (vm_compute; reflexivity).
  split; [exact Hp|].
  destruct (user_message_needs_truthy_user_and_body "Alice" anonymous
              [("type", VStr "message"); ("message", VStr "hi")] alice
              Hp eq_refl eq_refl) as (_ & Hdrop & _).
  destruct (Hdrop (or_introl eq_refl)) as (Hm & _ & Hr).
  split; [exact Hm|exact Hr].
Defined.

End SessionFacts.

(* ===================================================================== *)
(** * Relay and session together: dropped payloads and leaving *)
(* ===================================================================== *)

Module SystemFacts.
#[local] Open Scope list_scope.

Section WithCodec.
Context `{Codec}.

Lemma on_close_twice ws s :
  Server.quiet (exec (Server.on_close ws) (exec (Server.on_close ws) s))
  = Server.quiet (exec (Server.on_close ws) s).
Proof.
  unfold Server.quiet. simpl. now rewrite RelayFacts.set_delete_twice.
Qed.

Lemma on_error_after_close ws message s :
  Server.quiet (exec (Server.on_error ws message) (exec (Server.on_close ws) s))
  = Server.quiet (exec (Server.on_close ws) s).
Proof.
  unfold Server.quiet. simpl. now rewrite RelayFacts.set_delete_twice.
Qed.

(** Claim C5, as the two programs have it. Whatever a payload is, the
    relay's handler ends normally, removes no connection, touches no
    socket, and the relay registers and sends after it exactly what it
    would have without it; the session's handler ends normally too. What
    becomes of the payload depends on it. When the [try] block throws
    ([JSON.parse] throws, or returns [null]) relay and session drop it with
    a local report: two more lines on the relay's console and nothing sent,
    reports only in the session. A payload that is JSON but not a complete
    Message (a value that is no object, or an object that is neither a
    system nor a register message and whose [user] or [message] is missing
    or empty) is not dropped by the relay, which does not look at the
    fields: what the write of [timestamp] leaves of it (an object is
    stamped, on any other value the write is lost) is sent to every
    registered connection that is open. It is the session receiving it that
    drops it, with a warning, and goes on as if it had not come. *)
Theorem malformed_payload_is_reported_or_relayed
    ws data now (s : Server.server) (later : list Server.event)
    me (c : Client.session) (after : list Client.session_event) :
  let s' := exec (Server.on_message ws data now) s in
  (outcome (Server.on_message ws data now) s = Normal tt /\
   Server.clients s' = Server.clients s /\
   Server.sockets s' = Server.sockets s /\
   Server.sent_since s' (Server.run later s')
   = Server.sent_since s (Server.run later s) /\
   Server.clients (Server.run later s') = Server.clients (Server.run later s) /\
   Server.sockets (Server.run later s') = Server.sockets (Server.run later s) /\
   outcome (Client.onmessage me data) c = Normal tt) /\
  (JSON_parse data = None \/ JSON_parse data = Some VNull ->
   let c' := exec (Client.onmessage me data) c in
   Server.same_traffic s' s /\
   (exists e, Server.console s'
              = Server.console s ++ [Server.LogReceived data;
                                     Server.LogProcessingError e]) /\
   Server.same_traffic (Server.run later s') (Server.run later s) /\
   Client.session_quiet c' = Client.session_quiet c /\
   (exists lines, Client.reports c'
                  = Client.reports c ++ Client.NoteReceived data :: lines) /\
   Client.session_quiet
     (Client.session_run after
        (Client.session_step c (Client.SocketMessage data)))
   = Client.session_quiet (Client.session_run after c)) /\
  (forall v,
     JSON_parse data = Some v ->
     Client.unknown_format v = true ->
     exists stamped,
       assign v "timestamp" (VStr now) = Normal stamped /\
       (forall fields, v = VObj fields ->
                       stamped = VObj (obj_set "timestamp" (VStr now) fields)) /\
       ((forall fields, v <> VObj fields) -> stamped = v) /\
       Client.unknown_format stamped = true /\
       let relayed := JSON_stringify stamped in
       Server.sent_since s s' = Server.deliveries stamped s /\
       (forall client, client ∈ Server.clients s ->
                       Server.is_open s client = true ->
                       (client, relayed) ∈ Server.sent_since s s') /\
       Server.console s' = Server.console s ++ [Server.LogReceived data] /\
       (JSON_parse relayed = Some stamped ->
        let c' := exec (Client.onmessage me relayed) c in
        Client.messages c' = Client.messages c /\
        Client.session_quiet c' = Client.session_quiet c /\
        Client.reports c'
        = Client.reports c ++ [Client.NoteReceived relayed;
                               Client.NoteParsed stamped;
                               Client.WarnUnknown stamped] /\
        Client.session_quiet
          (Client.session_run after
             (Client.session_step c (Client.SocketMessage relayed)))
        = Client.session_quiet (Client.session_run after c))).
Proof.
  intros s'. subst s'.
  destruct (RelayFacts.payload_leaves_later_traffic_alone ws data now s later)
    as (Hcl & Hso & Hlater).
  simpl in Hcl, Hso, Hlater.
  assert (Hforget : Server.forget (exec (Server.on_message ws data now) s)
                    = Server.forget s).
  { unfold Server.forget. now rewrite Hcl, Hso. }
  destruct (RelayFacts.run_forget later _ _ Hforget) as [Hrc Hrs].
  split; [|split].
  - split; [apply (RelayFacts.handlers_complete ws data now "" s)|].
    split; [exact Hcl|]. split; [exact Hso|]. split; [exact Hlater|].
    split; [exact Hrc|]. split; [exact Hrs|].
    apply SessionFacts.onmessage_frame.
  - intros Hp c'. subst c'.
    destruct (RelayFacts.on_message_thrown ws data now s Hp) as [e He].
    assert (Hq : Server.quiet (exec (Server.on_message ws data now) s)
                 = Server.quiet s).
    { unfold exec. now rewrite He. }
    destruct (SessionFacts.onmessage_thrown me data c Hp) as [lines Hr].
    split; [now apply RelayFacts.quiet_same_traffic|].
    split; [exists e; unfold exec; rewrite He; simpl; now rewrite <- app_assoc|].
    split.
    { apply RelayFacts.quiet_same_traffic. now apply RelayFacts.relay_run_quiet. }
    split; [now rewrite Hr|].
    split; [exists lines; now rewrite Hr|].
    apply SessionFacts.session_run_quiet. simpl.
    destruct (Client.ws_current c) as [w|] eqn:Hw; [|reflexivity].
    destruct (decide (Client.readyState w = OPEN)); [|reflexivity].
    destruct (SessionFacts.onmessage_thrown (Client.handler_username w)
                data c Hp) as [lines' Hr'].
    now rewrite Hr'.
  - intros v Hp Hu.
    assert (Hst : exists stamped,
              assign v "timestamp" (VStr now) = Normal stamped /\
              (forall fields, v = VObj fields ->
                 stamped = VObj (obj_set "timestamp" (VStr now) fields)) /\
              ((forall fields, v <> VObj fields) -> stamped = v) /\
              Client.unknown_format stamped = true).
    { destruct v as [| | | | |items|fields]; try discriminate;
        try (eexists; split; [reflexivity|]; split; [discriminate|];
             split; [reflexivity|exact Hu]).
      exists (VObj (obj_set "timestamp" (VStr now) fields)).
      split; [reflexivity|]. split; [now intros ? [= ->]|].
      split; [intros Hno; now destruct (Hno fields)|].
      apply SessionFacts.unknown_format_object in Hu.
      apply SessionFacts.unknown_format_object.
      rewrite !RelayFacts.obj_get_set_ne by discriminate. exact Hu. }
    destruct Hst as (stamped & Ha & Hobj & Hother & Hu').
    exists stamped. split; [exact Ha|]. split; [exact Hobj|].
    split; [exact Hother|]. split; [exact Hu'|]. intros relayed.
    pose proof (RelayFacts.on_message_relayed ws data now s v stamped Hp Ha)
      as Hrun.
    assert (Hsent : Server.sent_since s (exec (Server.on_message ws data now) s)
                    = Server.deliveries stamped s).
    { apply RelayFacts.sent_since_app. unfold exec. now rewrite Hrun. }
    rewrite Hsent. split; [reflexivity|].
    split.
    { intros client Hin Ho. unfold Server.deliveries. apply list_elem_of_fmap.
      exists client. split; [reflexivity|]. apply list_elem_of_filter.
      split; [now apply Is_true_true|exact Hin]. }
    split; [unfold exec; now rewrite Hrun|].
    intros Hback c'. subst c'.
    rewrite (SessionFacts.onmessage_unknown_format me relayed stamped c Hback Hu').
    split; [reflexivity|]. split; [reflexivity|].
    split; [simpl; now rewrite <- !app_assoc|].
    apply SessionFacts.session_run_quiet. simpl.
    destruct (Client.ws_current c) as [w|] eqn:Hw; [|reflexivity].
    destruct (decide (Client.readyState w = OPEN)); [|reflexivity].
    now rewrite (SessionFacts.onmessage_unknown_format _ relayed stamped c
                   Hback Hu').
Qed.

(** Claim C7, as the session has it: [logout] runs from every session
    state without an error; it closes the socket if there is one, empties
    the message sequence and clears the name. It does not write
    [connectionStatus]: the session is [disconnected] once the [close]
    event of the socket has come. A second [logout] leaves the state the
    first one left, and a second ['close'] (or an ['error'] after the
    ['close']) for the same connection leaves the relay's registry, sockets
    and send log as the first left them. ([s] is any session state in the
    equations; the status after the [close] event is for the states the
    component can reach.) *)
Theorem leaving_is_idempotent (s : Client.session) ws message
    (r : Server.server) :
  let s1 := exec Client.logout s in
  let r1 := exec (Server.on_close ws) r in
  outcome Client.logout s = Normal tt /\
  Client.messages s1 = [] /\
  Client.username s1 = "" /\
  Client.hasJoined s1 = false /\
  Client.ws_current s1 = Client.ws_close <$> Client.ws_current s /\
  (forall w, Client.ws_current s1 = Some w ->
             Client.readyState w = CLOSING \/ Client.readyState w = CLOSED) /\
  Client.connectionStatus s1 = Client.connectionStatus s /\
  (forall storage evs,
     s = Client.session_run evs (Client.mount storage) ->
     Client.connectionStatus (Client.session_step s1 Client.SocketClosed)
     = Client.disconnected /\
     (Client.ws_current s = None ->
      Client.connectionStatus s1 = Client.disconnected)) /\
  exec Client.logout s1 = s1 /\
  outcome Client.logout s1 = Normal tt /\
  Client.session_step (Client.session_step s Client.Logout) Client.Logout
  = Client.session_step s Client.Logout /\
  outcome (Server.on_close ws) r1 = Normal tt /\
  Server.same_traffic (exec (Server.on_close ws) r1) r1 /\
  Server.same_traffic (exec (Server.on_error ws message) r1) r1.
Proof.
  intros s1 r1. subst s1 r1.
  split; [apply SessionFacts.logout_outcome|].
  split; [now rewrite SessionFacts.logout_exec|].
  split; [now rewrite SessionFacts.logout_exec|].
  split; [now rewrite SessionFacts.logout_exec|].
  split; [now rewrite SessionFacts.logout_exec|].
  split.
  { intros w. rewrite SessionFacts.logout_exec. simpl.
    destruct (Client.ws_current s) as [w0|]; [|discriminate].
    simpl. intros [= <-]. apply SessionFacts.ws_close_closed. }
  split; [now rewrite SessionFacts.logout_exec|].
  split.
  { intros storage evs ->.
    assert (Hs : Client.consistent
                   (Client.session_run evs (Client.mount storage)))
      by apply SessionFacts.consistent_run, SessionFacts.consistent_mount.
    split; [now apply SessionFacts.closed_after_logout|].
    intros Hnone. rewrite SessionFacts.logout_exec. simpl.
    unfold Client.consistent in Hs. now rewrite Hnone in Hs. }
  split; [apply SessionFacts.logout_twice|].
  split; [apply SessionFacts.logout_outcome|].
  split; [apply SessionFacts.step_logout_twice|].
  split; [reflexivity|].
  split.
  - apply RelayFacts.quiet_same_traffic. apply on_close_twice.
  - apply RelayFacts.quiet_same_traffic. apply on_error_after_close.
Qed.

End WithCodec.

Import Sample.

(** Claim C5 does not hold as stated. A Message of kind [message] that
    lacks its body is not dropped by the relay: with connections 1 and 2
    registered and open it is stamped and sent to both. Bob's session drops
    what the relay sent. *)
Lemma incomplete_message_is_not_dropped_by_the_relay :
  JSON_parse Scenario.bodiless = Some (VObj Scenario.bodiless_fields) /\
  obj_get "message" Scenario.bodiless_fields = VUndefined /\
  Server.sent_since two_clients
    (Server.step two_clients (Server.Inbound 1 Scenario.bodiless "09:05"))
  = [(1, Wire.text "{'type':'message','user':'Alice','timestamp':'09:05'}");
     (2, Wire.text "{'type':'message','user':'Alice','timestamp':'09:05'}")] /\
  Client.messages
    (Client.session_step bob
       (Client.SocketMessage
          (Wire.text "{'type':'message','user':'Alice','timestamp':'09:05'}")))
  = Client.messages bob.
Proof. vm_compute. repeat split. Qed.

Lemma malformed_payload_is_reported_or_relayed_witness :
  (JSON_parse garbage = None /\
   Server.same_traffic
     (Server.run [Server.Inbound 2 hello "09:06"]
        (exec (Server.on_message 1 garbage "09:05") two_clients))
     (Server.run [Server.Inbound 2 hello "09:06"] two_clients) /\
   Client.session_quiet
     (Client.session_run [Client.SocketMessage hello]
        (Client.session_step alice (Client.SocketMessage garbage)))
   = Client.session_quiet
       (Client.session_run [Client.SocketMessage hello] alice)) /\
  (JSON_parse Scenario.bodiless = Some (VObj Scenario.bodiless_fields) /\
   Client.unknown_format (VObj Scenario.bodiless_fields) = true /\
   exists stamped,
     stamped = VObj (obj_set "timestamp" (VStr "09:05")
                       Scenario.bodiless_fields) /\
     (2, JSON_stringify stamped)
       ∈ Server.sent_since two_clients
           (exec (Server.on_message 1 Scenario.bodiless "09:05") two_clients) /\
     Client.messages
       (exec (Client.onmessage "Bob" (JSON_stringify stamped)) bob)
     = Client.messages bob).
Proof.
  assert (Hg : JSON_parse garbage = None) by (vm_compute; reflexivity).
  assert (Hb : JSON_parse Scenario.bodiless
               = Some (VObj Scenario.bodiless_fields))
    by (vm_compute; reflexivity).
  assert (Hu : Client.unknown_format (VObj Scenario.bodiless_fields) = true)
    by reflexivity.
  assert (Hin : 2 ∈ Server.clients two_clients)
    by (vm_compute; right; left).
  split.
  - split; [exact Hg|].
    destruct (malformed_payload_is_reported_or_relayed 1 garbage "09:05"
                two_clients [Server.Inbound 2 hello "09:06"] "Alice" alice
                [Client.SocketMessage hello]) as (_ & Hdrop & _).
    destruct (Hdrop (or_introl Hg)) as (_ & _ & Hr & _ & _ & Hc).
    split; [exact Hr|exact Hc].
  - split; [exact Hb|]. split; [exact Hu|].
    destruct (malformed_payload_is_reported_or_relayed 1 Scenario.bodiless
                "09:05" two_clients [] "Bob" bob [])
      as (_ & _ & Hrelay).
    destruct (Hrelay _ Hb Hu)
      as (stamped & _ & Hobj & _ & _ & _ & Hsent & _ & Hsession).
    pose proof (Hobj _ eq_refl) as Hst.
    exists stamped. split; [exact Hst|].
    split; [exact (Hsent 2 Hin eq_refl)|].
    apply Hsession. rewrite Hst. vm_compute. reflexivity.
Defined.

(** Claim C7 does not hold as stated. A connected session that leaves is
    still [connected] when [logout] has returned and React has committed;
    it is [disconnected] after the [close] event. *)
Lemma status_after_logout_is_not_disconnected :
  Client.connectionStatus alice = Client.connected /\
  Client.connectionStatus (exec Client.logout alice) = Client.connected /\
  Client.connectionStatus (Client.session_step alice Client.Logout)
  = Client.connected /\
  Client.connectionStatus
    (Client.session_run [Client.Logout; Client.SocketClosed] alice)
  = Client.disconnected.
Proof. vm_compute. repeat split. Qed.

Lemma leaving_is_idempotent_witness :
  alice = Client.session_run [Client.TypeName "Alice"; Client.Join; Client.SocketOpened]
            (Client.mount ∅) /\
  Client.connectionStatus
    (Client.session_step (exec Client.logout alice) Client.SocketClosed)
  = Client.disconnected /\
  exec Client.logout (exec Client.logout alice) = exec Client.logout alice.
Proof.
  split; [reflexivity|].
  destruct (leaving_is_idempotent alice 1 "reset" two_clients)
    as (_ & _ & _ & _ & _ & _ & _ & Hclosed & Htwice & _).
  split; [exact (proj1 (Hclosed ∅ _ eq_refl))|exact Htwice].
Defined.

End SystemFacts.

(* ===================================================================== *)
(** * More about the relay: accepting, fan-out, order and shutdown *)
(* ===================================================================== *)

Module RelayCoverage.
Import Server.
#[local] Open Scope list_scope.

Section WithCodec.
Context `{Codec}.

Lemma length_set_delete (ws : conn) l :
  NoDup l -> ws ∈ l -> S (length (set_delete ws l)) = length l.
Proof.
  unfold set_delete. induction l as [|c l IH]; intros Hnd Hin.
  - inversion Hin.
  - apply NoDup_cons in Hnd as [Hc Hnd]. rewrite filter_cons.
    destruct (decide (c <> ws)) as [Hne|Heq].
    + simpl. f_equal. apply IH; [exact Hnd|].
      apply elem_of_cons in Hin as [->|Hin]; [congruence|exact Hin].
    + assert (c = ws) as -> by (destruct (decide (c = ws)); tauto).
      simpl. f_equal.
      change (filter (fun c => c <> ws) l) with (set_delete ws l).
      now rewrite RelayFacts.set_delete_absent.
Qed.

Lemma length_set_add (ws : conn) l :
  length (set_add ws l) = if decide (ws ∈ l) then length l else S (length l).
Proof.
  unfold set_add. destruct (decide (ws ∈ l)); [reflexivity|].
  rewrite length_app. simpl. lia.
Qed.

(** Accepting a connection: the registry gains it (once, however often it
    is accepted), its socket is open, and one welcome of kind [system] with
    the relay's time goes to it and to nobody else. *)
Theorem accept_registers_and_welcomes ws now s :
  let s' := step s (Accept ws now) in
  sent_since s s' = [(ws, JSON_stringify (welcome now))] /\
  prop (welcome now) "type" = Normal (VStr "system") /\
  prop (welcome now) "timestamp" = Normal (VStr now) /\
  (forall c, c ∈ clients s' <-> c = ws \/ c ∈ clients s) /\
  length (clients s')
  = (if decide (ws ∈ clients s) then length (clients s)
     else S (length (clients s))) /\
  (NoDup (clients s) -> NoDup (clients s')) /\
  is_open s' ws = true /\
  (forall c, c <> ws -> sockets s' !! c = sockets s !! c).
Proof.
  intros s'. subst s'.
  split; [now apply RelayFacts.sent_since_app|].
  split; [reflexivity|]. split; [reflexivity|].
  split; [intros c; rewrite RelayFacts.clients_step;
          apply RelayFacts.elem_of_set_add|].
  split; [rewrite RelayFacts.clients_step; apply length_set_add|].
  split; [rewrite RelayFacts.clients_step; apply RelayFacts.NoDup_set_add|].
  split.
  - unfold is_open. simpl. apply bool_decide_eq_true. apply lookup_insert_eq.
  - intros c Hne. simpl. now apply lookup_insert_ne.
Qed.

(** The totals the relay logs. After any history, the total logged for a
    connection is the size of the registry after the handler exactly when
    the connection was not registered yet, and the total logged for a close
    is the size after the handler exactly when the connection was
    registered: for a close of a connection that is not registered the
    logged total is one below the real one. *)
Theorem logged_totals_follow_the_registry evs ws now :
  let s := run evs initial in
  let accepted := exec (on_connection ws now) s in
  let closed := exec (on_close ws) s in
  console accepted = console s ++ [LogConnected (size s + 1)] /\
  (size accepted = (size s + 1)%Z <-> ws ∉ clients s) /\
  console closed = console s ++ [LogDisconnected (size s - 1)] /\
  (size closed = (size s - 1)%Z <-> ws ∈ clients s) /\
  (ws ∉ clients s -> size closed = size s).
Proof.
  intros s accepted closed.
  assert (Hnd : NoDup (clients s)) by (apply RelayFacts.registry_NoDup; constructor).
  split; [reflexivity|]. split.
  { unfold accepted, size. simpl. rewrite length_set_add.
    destruct (decide (ws ∈ clients s)); split; intros; try lia; tauto. }
  split; [reflexivity|]. split.
  { unfold closed, size. simpl. split.
    - intros Hs. destruct (decide (ws ∈ clients s)) as [|Hout]; [assumption|].
      rewrite (RelayFacts.set_delete_absent _ _ Hout) in Hs. lia.
    - intros Hin. pose proof (length_set_delete ws _ Hnd Hin). lia. }
  intros Hout. unfold closed, size. simpl.
  now rewrite RelayFacts.set_delete_absent.
Qed.

(** ** Histories in which sockets change only by accept, close and error *)

Lemma registered_are_open evs s :
  Forall (fun e => forall ws r, e <> Transport ws r) evs ->
  (forall c, c ∈ clients s -> sockets s !! c = Some OPEN) ->
  forall c, c ∈ clients (run evs s) -> sockets (run evs s) !! c = Some OPEN.
Proof.
  revert s. induction evs as [|e evs IH]; intros s Hev Hs; [exact Hs|].
  apply Forall_cons in Hev as [He Hev]. simpl. apply IH; [exact Hev|].
  intros c. rewrite RelayFacts.clients_step.
  destruct e as [ws now|ws data now|ws|ws msg|ws r].
  - rewrite RelayFacts.elem_of_set_add. simpl.
    destruct (decide (ws = c)) as [->|Hne].
    + intros _. apply lookup_insert_eq.
    + intros [->|Hc]; [congruence|]. rewrite lookup_insert_ne by exact Hne.
      now apply Hs.
  - intros Hc.
    destruct (RelayFacts.on_message_frame ws data now s) as (_ & Hso & _).
    simpl. rewrite Hso. now apply Hs.
  - rewrite RelayFacts.elem_of_set_delete. intros [Hne Hc]. simpl.
    rewrite lookup_insert_ne by congruence. now apply Hs.
  - rewrite RelayFacts.elem_of_set_delete. intros [Hne Hc]. simpl.
    rewrite lookup_insert_ne by congruence. now apply Hs.
  - exfalso. now apply (He ws r).
Qed.

Lemma filter_all_open s :
  (forall c, c ∈ clients s -> sockets s !! c = Some OPEN) ->
  filter (fun client => is_open s client) (clients s) = clients s.
Proof.
  intros Hs. induction (clients s) as [|c l IH]; [reflexivity|].
  rewrite filter_cons.
  assert (Hc : is_open s c = true).
  { unfold is_open. apply bool_decide_eq_true. apply Hs. now left. }
  destruct (decide (is_open s c)) as [_|Hn].
  - f_equal. apply IH. intros c' Hc'. apply Hs. now right.
  - rewrite Hc in Hn. now destruct Hn.
Qed.

(** Full fan-out. In a history where the transport changes no socket
    behind the relay's back, every registered connection is open, so a
    Message that comes in is sent to the whole registry: to every connection
    accepted and not closed, once each, in the order of their accepts. *)
Theorem message_reaches_the_whole_registry evs ws data now fields :
  Forall (fun e => forall c r, e <> Transport c r) evs ->
  JSON_parse data = Some (VObj fields) ->
  let s := run evs initial in
  let s' := step s (Inbound ws data now) in
  targets (sent_since s s') = clients s /\
  (forall c, c ∈ targets (sent_since s s') <-> live c evs = true) /\
  sent_since s s'
  = (fun c => (c, JSON_stringify
                    (VObj (obj_set "timestamp" (VStr now) fields))))
      <$> clients s.
Proof.
  intros Hev Hp s s'. subst s'.
  assert (Hopen : forall c, c ∈ clients s -> sockets s !! c = Some OPEN).
  { apply registered_are_open; [exact Hev|]. intros c Hc. inversion Hc. }
  assert (Hs : sent_since s (step s (Inbound ws data now))
               = (fun c => (c, JSON_stringify
                              (VObj (obj_set "timestamp" (VStr now) fields))))
                   <$> clients s).
  { simpl. rewrite (RelayFacts.on_message_sent_since _ _ _ _ _ Hp).
    unfold deliveries. now rewrite filter_all_open. }
  assert (Ht : targets (sent_since s (step s (Inbound ws data now)))
               = clients s).
  { rewrite Hs. unfold targets. rewrite <- list_fmap_compose.
    apply list_fmap_id. }
  split; [exact Ht|]. split; [|exact Hs].
  intros c. rewrite Ht. apply (RelayFacts.registry_live_from c evs initial).
Qed.

(** ** Who is ever sent anything *)

Lemma sent_run_from evs s c :
  c ∈ targets (sent (run evs s)) ->
  c ∈ targets (sent s) \/ c ∈ clients s \/
  Exists (fun e => accepts c e = true) evs.
Proof.
  revert s. induction evs as [|e evs IH]; intros s Hc; [now left|].
  simpl in Hc. destruct (IH _ Hc) as [Hs|[Hr|Hl]].
  - destruct (RelayFacts.sent_step s e) as (new & Hnew & Hfrom).
    rewrite Hnew in Hs. unfold targets in Hs. rewrite fmap_app in Hs.
    apply elem_of_app in Hs as [Hs|Hs]; [now left|].
    destruct (Hfrom c Hs) as [Hin|Hacc]; [right; now left|].
    right; right. now apply Exists_cons_hd.
  - apply (bool_decide_eq_true_2 _) in Hr.
    rewrite RelayFacts.live_after_step in Hr.
    destruct (decide (c ∈ clients s)) as [Hin|Hout]; [right; now left|].
    rewrite (bool_decide_eq_false_2 _ Hout) in Hr.
    right; right. apply Exists_cons_hd.
    destruct e as [ws ?|? ? ?|ws|ws ?|? ?]; simpl in *; try discriminate;
      destruct (decide (ws = c)) as [->|]; try discriminate.
    now apply bool_decide_eq_true.
  - right; right. now apply Exists_cons_tl.
Qed.

(** The relay never addresses a connection it has not accepted: whatever
    the history, every send in the log goes to a connection of an earlier
    ['connection'] event. *)
Theorem only_accepted_connections_are_addressed evs c text :
  (c, text) ∈ sent (run evs initial) ->
  Exists (fun e => accepts c e = true) evs.
Proof.
  intros Hin.
  destruct (sent_run_from evs initial c) as [Hs|[Hr|Hl]].
  - unfold targets. apply list_elem_of_fmap. now exists (c, text).
  - inversion Hs.
  - inversion Hr.
  - exact Hl.
Qed.

(** ** Payloads that are JSON but no object *)

(** A payload that parses to a boolean, a number, a string or an array is
    relayed as it came: the write of [timestamp] is lost on it, so every
    open registered connection gets the text of the value itself, without
    the relay's time, and no error is logged. *)
Theorem non_record_payload_is_relayed_as_it_came ws data now s v :
  JSON_parse data = Some v ->
  match v with
  | VBool _ | VNum _ | VStr _ | VArr _ => True
  | VUndefined | VNull | VObj _ => False
  end ->
  let s' := exec (on_message ws data now) s in
  sent_since s s' = deliveries v s /\
  (forall c t, (c, t) ∈ sent_since s s' -> t = JSON_stringify v) /\
  console s' = console s ++ [LogReceived data] /\
  clients s' = clients s.
Proof.
  intros Hp Hv s'. subst s'.
  assert (Hrun : on_message ws data now s
                 = (deliver (deliveries v s) (log (LogReceived data) s),
                    Normal tt)).
  { unfold on_message, bind, modify, try_catch, lift, parse. rewrite Hp.
    destruct v; try contradiction; simpl;
      now rewrite RelayFacts.broadcast_run. }
  unfold exec. rewrite Hrun. simpl.
  assert (Hs : sent_since s (deliver (deliveries v s) (log (LogReceived data) s))
               = deliveries v s) by now apply RelayFacts.sent_since_app.
  rewrite Hs. split; [reflexivity|].
  split; [intros c t; apply RelayFacts.deliveries_text|].
  split; reflexivity.
Qed.

(** ** Order *)

Lemma filter_recipient (c : conn) (t : string) l :
  NoDup l -> c ∈ l ->
  filter (fun x : conn * string => x.1 = c) ((fun k => (k, t)) <$> l)
  = [(c, t)].
Proof.
  induction l as [|k l IH]; intros Hnd Hin; [inversion Hin|].
  apply NoDup_cons in Hnd as [Hk Hnd]. rewrite fmap_cons, filter_cons. simpl.
  destruct (decide (k = c)) as [->|Hne].
  - f_equal. clear IH Hin Hnd. induction l as [|k l IH]; [reflexivity|].
    rewrite fmap_cons, filter_cons. simpl. apply not_elem_of_cons in Hk as [Hne Hk].
    destruct (decide (k = c)); [congruence|]. now apply IH.
  - apply IH; [exact Hnd|].
    apply elem_of_cons in Hin as [->|Hin]; [congruence|exact Hin].
Qed.

(** Arrival order. Two Messages that come in one after the other are
    broadcast one after the other to the same connections: every open
    registered connection is sent the first, then the second, and nothing
    else. *)
Theorem messages_are_relayed_in_arrival_order
    evs ws1 data1 now1 fields1 ws2 data2 now2 fields2 c :
  JSON_parse data1 = Some (VObj fields1) ->
  JSON_parse data2 = Some (VObj fields2) ->
  let s := run evs initial in
  let s' := run [Inbound ws1 data1 now1; Inbound ws2 data2 now2] s in
  let first := VObj (obj_set "timestamp" (VStr now1) fields1) in
  let second := VObj (obj_set "timestamp" (VStr now2) fields2) in
  sent_since s s' = deliveries first s ++ deliveries second s /\
  (c ∈ clients s -> is_open s c = true ->
   filter (fun x : conn * string => x.1 = c) (sent_since s s')
   = [(c, JSON_stringify first); (c, JSON_stringify second)]).
Proof.
  intros Hp1 Hp2 s s' first second. subst s'.
  assert (Hs : sent_since s
                 (run [Inbound ws1 data1 now1; Inbound ws2 data2 now2] s)
               = deliveries first s ++ deliveries second s).
  { apply RelayFacts.sent_since_app. simpl. unfold exec.
    rewrite (RelayFacts.on_message_object _ _ _ _ _ Hp1). simpl.
    rewrite (RelayFacts.on_message_object _ _ _ _ _ Hp2). simpl.
    now rewrite <- app_assoc. }
  split; [exact Hs|]. intros Hin Ho. rewrite Hs, filter_app.
  assert (Hnd : NoDup (filter (fun client => is_open s client) (clients s))).
  { apply NoDup_filter. apply RelayFacts.registry_NoDup. constructor. }
  assert (Hc : c ∈ filter (fun client => is_open s client) (clients s)).
  { apply list_elem_of_filter. split; [now apply Is_true_true|exact Hin]. }
  unfold deliveries.
  now rewrite (filter_recipient c _ _ Hnd Hc), (filter_recipient c _ _ Hnd Hc).
Qed.

(** ** Shutdown *)

Lemma on_message_addresses_open ws data now s :
  exists new,
    sent (exec (on_message ws data now) s) = sent s ++ new /\
    forall c, c ∈ targets new -> c ∈ clients s /\ is_open s c = true.
Proof.
  unfold exec, on_message, bind, modify, try_catch, lift, parse.
  assert (Hd : forall m c,
             c ∈ targets (deliveries m (log (LogReceived data) s)) ->
             c ∈ clients s /\ is_open s c = true).
  { intros m c Hc. now apply RelayFacts.targets_deliveries in Hc. }
  assert (Hn : forall c, c ∈ targets [] -> c ∈ clients s /\ is_open s c = true).
  { intros c Hc. inversion Hc. }
  destruct (JSON_parse data) as [v|];
    [destruct v|]; simpl; rewrite ?RelayFacts.broadcast_run; simpl;
    eauto; exists []; now rewrite app_nil_r.
Qed.

Lemma close_socket_lookup client s c :
  sockets (Shutdown.close_socket client s) !! c
  = if decide (client = c) then Shutdown.closed_state (sockets s !! c)
    else sockets s !! c.
Proof.
  unfold Shutdown.close_socket.
  destruct (decide (client = c)) as [->|Hne].
  - destruct (sockets s !! c) as [[]|] eqn:Hc; simpl;
      rewrite ?lookup_insert_eq, ?Hc; reflexivity.
  - destruct (sockets s !! client) as [[]|]; simpl;
      rewrite ?lookup_insert_ne by exact Hne; reflexivity.
Qed.

Lemma close_socket_frame client s :
  clients (Shutdown.close_socket client s) = clients s /\
  sent (Shutdown.close_socket client s) = sent s /\
  console (Shutdown.close_socket client s) = console s.
Proof.
  unfold Shutdown.close_socket. destruct (sockets s !! client) as [[]|]; auto.
Qed.

Lemma closed_state_twice o :
  Shutdown.closed_state (Shutdown.closed_state o) = Shutdown.closed_state o.
Proof. destruct o as [[]|]; reflexivity. Qed.

Lemma close_all_run l p :
  exists r,
    for_each l (fun client =>
                  modify (Shutdown.with_relay (Shutdown.close_socket client))) p
    = ({| Shutdown.relay := r; Shutdown.accepting := Shutdown.accepting p;
          Shutdown.exited := Shutdown.exited p;
          Shutdown.notices := Shutdown.notices p |}, Normal tt) /\
    clients r = clients (Shutdown.relay p) /\
    sent r = sent (Shutdown.relay p) /\
    console r = console (Shutdown.relay p) /\
    forall c, sockets r !! c
              = if decide (c ∈ l)
                then Shutdown.closed_state (sockets (Shutdown.relay p) !! c)
                else sockets (Shutdown.relay p) !! c.
Proof.
  revert p. induction l as [|k l IH]; intros p.
  - exists (Shutdown.relay p). destruct p. simpl.
    split; [reflexivity|]. split; [reflexivity|]. split; [reflexivity|].
    split; [reflexivity|].
    intros c. destruct (decide (c ∈ [])) as [Hc|]; [inversion Hc|reflexivity].
  - cbn [for_each]. unfold bind at 1, modify at 1.
    destruct (IH (Shutdown.with_relay (Shutdown.close_socket k) p))
      as (r & Hrun & Hc & Hs & Hl & Hso).
    exists r. rewrite Hrun. simpl in *.
    destruct (close_socket_frame k (Shutdown.relay p)) as (Hc' & Hs' & Hl').
    split; [reflexivity|]. split; [congruence|]. split; [congruence|].
    split; [congruence|].
    intros c. rewrite Hso, close_socket_lookup.
    destruct (decide (k = c)) as [->|Hne].
    + destruct (decide (c ∈ c :: l)) as [_|Hout];
        [|exfalso; apply Hout; now left].
      destruct (decide (c ∈ l)); [apply closed_state_twice|reflexivity].
    + destruct (decide (c ∈ l)) as [Hin|Hout].
      * destruct (decide (c ∈ k :: l)) as [_|Hout];
          [reflexivity|exfalso; apply Hout; now right].
      * destruct (decide (c ∈ k :: l)) as [Hin|_]; [|reflexivity].
        apply elem_of_cons in Hin as [->|Hin]; [congruence|contradiction].
Qed.

(** Shutdown. The [SIGINT] handler closes the socket of every registered
    connection and stops the server from accepting; it removes nobody from
    the registry (the ['close'] events do that), sends nothing, touches no
    other socket and does not end the process (the callback of
    [server.close] does). From then on no registered connection is open: a
    payload that still comes in is sent to nobody. *)
Theorem shutdown_closes_every_registered_connection
    (p : Shutdown.process) ws data now :
  let p' := exec Shutdown.on_sigint p in
  let r := Shutdown.relay p in
  let r' := Shutdown.relay p' in
  outcome Shutdown.on_sigint p = Normal tt /\
  clients r' = clients r /\
  sent r' = sent r /\
  Shutdown.accepting p' = false /\
  Shutdown.exited p' = Shutdown.exited p /\
  Shutdown.exited (exec Shutdown.on_server_closed p') = true /\
  (forall c, c ∈ clients r -> is_open r' c = false) /\
  (forall c, c ∉ clients r -> sockets r' !! c = sockets r !! c) /\
  (forall c, sockets r !! c = Some CLOSED -> sockets r' !! c = Some CLOSED) /\
  sent_since r' (exec (on_message ws data now) r') = [].
Proof.
  intros p' r r'. subst p' r r'.
  destruct (close_all_run (clients (Shutdown.relay p))
              (Shutdown.note Shutdown.ShuttingDown p))
    as (r & Hrun & Hc & Hs & Hl & Hso).
  assert (Hsig : Shutdown.on_sigint p
                 = ({| Shutdown.relay := r; Shutdown.accepting := false;
                       Shutdown.exited := Shutdown.exited p;
                       Shutdown.notices :=
                         Shutdown.notices p ++ [Shutdown.ShuttingDown] |},
                    Normal tt)).
  { unfold Shutdown.on_sigint.
    cbv beta iota zeta delta [bind gets]. unfold modify at 1.
    change (clients (Shutdown.relay (Shutdown.note Shutdown.ShuttingDown p)))
      with (clients (Shutdown.relay p)).
    rewrite Hrun. reflexivity. }
  assert (Hexec : exec Shutdown.on_sigint p
                  = {| Shutdown.relay := r; Shutdown.accepting := false;
                       Shutdown.exited := Shutdown.exited p;
                       Shutdown.notices :=
                         Shutdown.notices p ++ [Shutdown.ShuttingDown] |})
    by (unfold exec; now rewrite Hsig).
  assert (Hended : outcome Shutdown.on_sigint p = Normal tt)
    by (unfold outcome; now rewrite Hsig).
  rewrite Hexec, Hended. simpl in *.
  assert (Hclosed : forall c, c ∈ clients (Shutdown.relay p) ->
                              is_open r c = false).
  { intros c Hin. unfold is_open. apply bool_decide_eq_false. rewrite Hso.
    destruct (decide (c ∈ clients (Shutdown.relay p))); [|contradiction].
    destruct (sockets (Shutdown.relay p) !! c) as [[]|]; simpl; congruence. }
  split; [reflexivity|]. split; [exact Hc|]. split; [exact Hs|].
  split; [reflexivity|]. split; [reflexivity|]. split; [reflexivity|].
  split; [exact Hclosed|].
  split.
  { intros c Hout. rewrite Hso.
    destruct (decide (c ∈ clients (Shutdown.relay p))); [contradiction|].
    reflexivity. }
  split.
  { intros c Hcl. rewrite Hso, Hcl.
    destruct (decide (c ∈ clients (Shutdown.relay p))); reflexivity. }
  destruct (on_message_addresses_open ws data now r) as (new & Hnew & Hopen).
  rewrite (RelayFacts.sent_since_app _ _ _ Hnew).
  destruct new as [|[c t] new]; [reflexivity|]. exfalso.
  destruct (Hopen c) as [Hin Ho]; [unfold targets; simpl; now left|].
  rewrite Hc in Hin. rewrite (Hclosed c Hin) in Ho. discriminate.
Qed.

End WithCodec.

Import Sample Scenario.

Lemma message_reaches_the_whole_registry_witness :
  Forall (fun e => forall c r, e <> Transport c r)
    [Accept 1 "09:00"; Accept 2 "09:01"; Accept 3 "09:02"; Closed 2] /\
  JSON_parse hello = Some (VObj hello_fields) /\
  targets (sent_since busy_relay (step busy_relay (Inbound 1 hello "09:05")))
  = clients busy_relay.
Proof.
  assert (Hev : Forall (fun e => forall c r, e <> Transport c r)
                  [Accept 1 "09:00"; Accept 2 "09:01"; Accept 3 "09:02";
                   Closed 2])
    by (repeat constructor; discriminate).
  assert (Hp : JSON_parse hello = Some (VObj hello_fields))
    by (vm_compute; reflexivity).
  split; [exact Hev|]. split; [exact Hp|].
  exact (proj1 (message_reaches_the_whole_registry _ 1 hello "09:05"
                  hello_fields Hev Hp)).
Defined.

Lemma only_accepted_connections_are_addressed_witness :
  (2, JSON_stringify (welcome "09:01"))
    ∈ sent (run [Accept 1 "09:00"; Accept 2 "09:01"] initial) /\
  Exists (fun e => accepts 2 e = true) [Accept 1 "09:00"; Accept 2 "09:01"].
Proof.
  assert (Hin : (2, JSON_stringify (welcome "09:01"))
                  ∈ sent (run [Accept 1 "09:00"; Accept 2 "09:01"] initial))
    by (vm_compute; right; left).
  split; [exact Hin|].
  exact (only_accepted_connections_are_addressed _ 2 _ Hin).
Defined.

Lemma non_record_payload_is_relayed_as_it_came_witness :
  JSON_parse "[true,null]" = Some (VArr [VBool true; VNull]) /\
  sent_since two_clients (exec (on_message 1 "[true,null]" "09:05") two_clients)
  = deliveries (VArr [VBool true; VNull]) two_clients.
Proof.
  assert (Hp : JSON_parse "[true,null]" = Some (VArr [VBool true; VNull]))
    by (vm_compute; reflexivity).
  split; [exact Hp|].
  exact (proj1 (non_record_payload_is_relayed_as_it_came 1 "[true,null]"
                  "09:05" two_clients _ Hp I)).
Defined.

Lemma messages_are_relayed_in_arrival_order_witness :
  JSON_parse hello = Some (VObj hello_fields) /\
  JSON_parse registration = Some (VObj registration_fields) /\
  2 ∈ clients two_clients /\
  is_open two_clients 2 = true /\
  filter (fun x : conn * string => x.1 = 2)
    (sent_since two_clients
       (run [Inbound 1 hello "09:05"; Inbound 2 registration "09:06"]
            two_clients))
  = [(2, JSON_stringify
           (VObj (obj_set "timestamp" (VStr "09:05") hello_fields)));
     (2, JSON_stringify
           (VObj (obj_set "timestamp" (VStr "09:06") registration_fields)))].
Proof.
  assert (Hp1 : JSON_parse hello = Some (VObj hello_fields))
    by (vm_compute; reflexivity).
  assert (Hp2 : JSON_parse registration = Some (VObj registration_fields))
    by (vm_compute; reflexivity).
  assert (Hin : 2 ∈ clients two_clients) by (vm_compute; right; left).
  assert (Ho : is_open two_clients 2 = true) by (vm_compute; reflexivity).
  split; [exact Hp1|]. split; [exact Hp2|]. split; [exact Hin|].
  split; [exact Ho|].
  exact (proj2 (messages_are_relayed_in_arrival_order
                  [Accept 1 "09:00"; Accept 2 "09:01"]
                  1 hello "09:05" hello_fields
                  2 registration "09:06" registration_fields 2 Hp1 Hp2)
               Hin Ho).
Defined.

End RelayCoverage.

(* ===================================================================== *)
(** * More about the session: classification, sending, joining, leaving *)
(* ===================================================================== *)

Module SessionCoverage.
Import Client SessionFacts.
#[local] Open Scope list_scope.

(** ** [trim] *)

Lemma trim_start_starts s : Text.starts_with_space (trim_start s) = false.
Proof.
  induction s as [|a rest IH]; [reflexivity|]. simpl.
  destruct (is_space a) eqn:Ha; [exact IH|]. simpl. exact Ha.
Qed.

Lemma trim_end_ends s : Text.ends_with_space (trim_end s) = false.
Proof.
  induction s as [|a rest IH]; [reflexivity|]. simpl.
  destruct (trim_end rest) as [|b kept] eqn:Hr.
  - destruct (is_space a) eqn:Ha; [reflexivity|]. simpl. exact Ha.
  - simpl in *. exact IH.
Qed.

Lemma trim_end_starts s :
  Text.starts_with_space s = false ->
  Text.starts_with_space (trim_end s) = false.
Proof.
  destruct s as [|a rest]; [reflexivity|]. simpl. intros Ha.
  destruct (trim_end rest); [rewrite Ha|]; simpl; exact Ha.
Qed.

Lemma trim_end_twice s : trim_end (trim_end s) = trim_end s.
Proof.
  induction s as [|a rest IH]; [reflexivity|]. simpl.
  destruct (trim_end rest) as [|b kept] eqn:Hr.
  - destruct (is_space a) eqn:Ha; [reflexivity|]. simpl. now rewrite Ha.
  - cbn [trim_end]. fold trim_end. cbn [trim_end] in IH. fold trim_end in IH.
    now rewrite IH.
Qed.

Lemma trim_start_fixed s :
  Text.starts_with_space s = false -> trim_start s = s.
Proof. destruct s as [|a rest]; [reflexivity|]. simpl. now intros ->. Qed.

Lemma trim_twice s : trim (trim s) = trim s.
Proof.
  unfold trim.
  rewrite (trim_start_fixed (trim_end (trim_start s)))
    by apply trim_end_starts, trim_start_starts.
  apply trim_end_twice.
Qed.

Lemma trim_clean s : trim s <> "" -> Text.clean (trim s).
Proof.
  intros Hne. split; [exact Hne|]. split.
  - apply trim_end_starts, trim_start_starts.
  - apply trim_end_ends.
Qed.

Section WithCodec.
Context `{Codec}.

(** ** Sending *)

(** The three ways [sendMessage] ends. With a blank text it changes
    nothing at all. With a text and no open socket it alerts and keeps the
    text in the field. With a text and an open socket it hands the socket
    one frame, whose body is the text without the white space around it
    (never empty, never padded; trimming it again changes nothing) and
    whose user is the session's name, clears the field, and leaves the
    message sequence alone: the sender's own message appears only when the
    relay sends it back. *)
Theorem send_ends_in_one_of_three_ways now s :
  let s' := exec (sendMessage now) s in
  let body := trim (inputMessage s) in
  (body = "" /\ s' = s) \/
  (body <> "" /\ current_is_open s = false /\
   s' = report (Alert "Not connected to server!") s) \/
  (current_is_open s = true /\
   Text.clean body /\ trim body = body /\
   transmitted s'
   = transmitted s
     ++ [JSON_stringify (VObj [("type", VStr "message");
                               ("user", VStr (username s));
                               ("message", VStr body);
                               ("timestamp", VStr now)])] /\
   inputMessage s' = "" /\
   messages s' = messages s /\
   connectionStatus s' = connectionStatus s).
Proof.
  intros s' body. subst s' body.
  destruct (String.eqb_spec (trim (inputMessage s)) "") as [Hb|Hb].
  - left. split; [exact Hb|]. open_session. rewrite Hb. reflexivity.
  - right. destruct (current_is_open s) eqn:Ho.
    + right. split; [reflexivity|]. split; [now apply trim_clean|].
      split; [apply trim_twice|].
      pose proof (proj2 (truthy_string _) Hb) as Ht.
      destruct (sendMessage_sends now s Ho Hb) as (_ & Hs & Hm & Hi).
      split; [exact Hs|]. split; [exact Hi|]. split; [exact Hm|].
      open_session.
      destruct (String.eqb_spec (trim (inputMessage s)) ""); [congruence|].
      simpl. unfold current_is_open in Ho. rewrite Ho. reflexivity.
    + left. split; [exact Hb|]. split; [reflexivity|]. open_session.
      destruct (String.eqb_spec (trim (inputMessage s)) ""); [congruence|].
      simpl. unfold current_is_open in Ho. rewrite Ho. reflexivity.
Qed.

(** ** Joining *)

(** Joining from the join screen. With a blank name nothing happens: no
    socket, nothing stored. With a name, the trimmed name and the flag go
    to [localStorage], the session has joined and is [connecting] on a new
    socket with nothing sent yet, whose handlers hold the name as typed;
    the message sequence is untouched. *)
Theorem join_stores_the_name_and_connects s :
  hasJoined s = false ->
  let s' := session_step s Join in
  let name := trim (username s) in
  (name = "" -> s' = s) /\
  (name <> "" ->
   Text.clean name /\
   hasJoined s' = true /\
   username s' = username s /\
   connectionStatus s' = connecting /\
   ws_current s'
   = Some {| readyState := CONNECTING; outgoing := [];
             handler_username := username s |} /\
   localStorage s' !! "chatUsername" = Some name /\
   localStorage s' !! "chatHasJoined" = Some "true" /\
   messages s' = messages s /\
   reports s' = reports s ++ [NoteConnecting]).
Proof.
  intros Hj s' name. subst s' name.
  destruct s as [msgs input me joined st sock ls con old]. simpl in Hj. subst joined.
  cbn [username]. split.
  - intros Hb. open_session. rewrite Hb. simpl.
    case_bool_decide as Hd; [reflexivity|]. exfalso. now apply Hd.
  - intros Hb. split; [now apply trim_clean|]. open_session.
    destruct (String.eqb_spec (trim me) ""); [congruence|]. simpl.
    repeat split; try reflexivity.
    + rewrite lookup_insert_ne by discriminate. apply lookup_insert_eq.
    + apply lookup_insert_eq.
Qed.

(** ** The other branches of [onmessage] *)

(** A payload of kind [system] is appended as a system record: the user is
    ['System'] whatever the payload says, the text and the time are the
    payload's (undefined when missing), it is never the session's own, and
    it is shown centred. *)
Theorem system_message_is_appended_as_system me data fields s :
  JSON_parse data = Some (VObj fields) ->
  strict_eq_str (obj_get "type" fields) "system" = true ->
  let record := [("user", VStr "System");
                 ("message", obj_get "message" fields);
                 ("timestamp", obj_get "timestamp" fields);
                 ("isMine", VBool false);
                 ("isSystem", VBool true)] in
  messages (exec (onmessage me data) s) = messages s ++ [VObj record] /\
  Render.justify record = Render.Centered /\
  Render.shows_sender record = false /\
  Render.body record = obj_get "message" fields /\
  reports (exec (onmessage me data) s)
  = reports s ++ [NoteReceived data; NoteParsed (VObj fields)].
Proof.
  intros Hp Hsys record. subst record.
  open_handler. rewrite Hp. simpl. rewrite Hsys. simpl.
  repeat split; try reflexivity. now rewrite <- app_assoc.
Qed.

(** A payload of kind [register] is consumed: it is reported and never
    appended, even when it carries a user and a text. *)
Theorem register_message_is_consumed me data fields s :
  JSON_parse data = Some (VObj fields) ->
  strict_eq_str (obj_get "type" fields) "register" = true ->
  messages (exec (onmessage me data) s) = messages s /\
  session_quiet (exec (onmessage me data) s) = session_quiet s /\
  reports (exec (onmessage me data) s)
  = reports s ++ [NoteReceived data; NoteParsed (VObj fields);
                  NoteRegistered (obj_get "username" fields)].
Proof.
  intros Hp Hreg.
  assert (Hsys : strict_eq_str (obj_get "type" fields) "system" = false).
  { apply strict_eq_str_true in Hreg. rewrite Hreg. reflexivity. }
  open_handler. rewrite Hp. simpl. rewrite Hsys, Hreg. simpl.
  repeat split; try reflexivity. now rewrite <- !app_assoc.
Qed.

(** The record of a user message. The session decides [isMine] itself:
    whatever [isMine] the payload carries is overwritten by the comparison
    of the payload's user with the session's name. Every other property of
    the payload is kept as it came, [isSystem] included, so the row is
    centred when the payload carries a truthy [isSystem], and otherwise on
    the right exactly when the user is the session's name. *)
Theorem the_session_decides_isMine me data fields s :
  JSON_parse data = Some (VObj fields) ->
  strict_eq_str (obj_get "type" fields) "system" = false ->
  strict_eq_str (obj_get "type" fields) "register" = false ->
  truthy (obj_get "user" fields) && truthy (obj_get "message" fields) = true ->
  exists record,
    messages (exec (onmessage me data) s) = messages s ++ [VObj record] /\
    obj_get "isMine" record
    = VBool (strict_eq_str (obj_get "user" fields) me) /\
    (forall k, k <> "isMine" -> obj_get k record = obj_get k fields) /\
    Render.justify record
    = (if truthy (obj_get "isSystem" fields) then Render.Centered
       else if strict_eq_str (obj_get "user" fields) me
            then Render.OnTheRight else Render.OnTheLeft) /\
    Render.body record = obj_get "message" fields.
Proof.
  intros Hp Hsys Hreg Hboth.
  apply strict_eq_str_false in Hsys, Hreg.
  exists (obj_set "isMine"
            (VBool (strict_eq_str (obj_get "user" fields) me)) fields).
  split; [now apply onmessage_user_message|].
  split; [apply RelayFacts.obj_get_set_eq|].
  assert (Hkeep : forall k, k <> "isMine" ->
            obj_get k (obj_set "isMine"
                         (VBool (strict_eq_str (obj_get "user" fields) me))
                         fields)
            = obj_get k fields).
  { intros k Hk. apply RelayFacts.obj_get_set_ne. congruence. }
  split; [exact Hkeep|]. split.
  - unfold Render.justify. rewrite (Hkeep "isSystem") by discriminate.
    rewrite RelayFacts.obj_get_set_eq. simpl. reflexivity.
  - unfold Render.body. now apply Hkeep.
Qed.

(** A payload that is JSON but no object is reported and dropped: [null]
    as an error of the handler, a boolean, a number, a string or an array
    as an unknown format. The session is otherwise unchanged. *)
Theorem non_record_payload_is_reported me data v s :
  JSON_parse data = Some v ->
  match v with
  | VObj _ | VUndefined => False
  | _ => True
  end ->
  outcome (onmessage me data) s = Normal tt /\
  session_quiet (exec (onmessage me data) s) = session_quiet s /\
  reports (exec (onmessage me data) s)
  = reports s ++ [NoteReceived data; NoteParsed v;
                  match v with
                  | VNull => ErrorParsing TypeError
                  | _ => WarnUnknown v
                  end].
Proof.
  intros Hp Hv. open_handler. rewrite Hp.
  destruct v; try contradiction; simpl;
    (split; [reflexivity|]); (split; [reflexivity|]);
    now rewrite <- !app_assoc.
Qed.

(** ** What survives a reload *)

Lemma persisted_mount storage : Persist.persisted (mount storage).
Proof.
  unfold Persist.persisted. open_session. split_tests; simpl; auto.
Qed.

(** What an event does to the name, the flag and the storage. *)
Lemma step_identity s e :
  let s' := session_step s e in
  let same := hasJoined s' = hasJoined s /\ username s' = username s /\
              localStorage s' = localStorage s in
  match e with
  | TypeName v =>
      if hasJoined s then same
      else hasJoined s' = false /\ username s' = v /\
           localStorage s' = localStorage s
  | Join =>
      if hasJoined s || (trim (username s) =? "")%string then same
      else hasJoined s' = true /\ username s' = username s /\
           localStorage s'
           = <["chatHasJoined" := "true"]>
               (<["chatUsername" := trim (username s)]> (localStorage s))
  | Logout =>
      if hasJoined s
      then hasJoined s' = false /\ username s' = "" /\
           localStorage s'
           = delete "chatHasJoined" (delete "chatUsername" (localStorage s))
      else same
  | _ => same
  end.
Proof.
  destruct e; try solve
   [destruct s as [msgs input name joined st [[r out me]|] ls con old];
    destruct joined; open_session; split_tests; simpl; auto].
  simpl. destruct (ws_current s) as [w|]; [|auto].
  destruct (decide (readyState w = OPEN)); [|auto].
  destruct (onmessage_frame (handler_username w) data s)
    as (_ & _ & Hu & Hj & _ & _ & Hl). auto.
Qed.

Lemma persisted_step s e :
  Persist.persisted s -> Persist.persisted (session_step s e).
Proof.
  intros [Hj Hn]. pose proof (step_identity s e) as Hstep.
  unfold Persist.persisted.
  destruct e; cbv beta iota zeta in Hstep;
    try (destruct Hstep as (-> & -> & ->); now split).
  - destruct (hasJoined s) eqn:Hjs;
      [destruct Hstep as (-> & -> & ->); now split|].
    destruct Hstep as (-> & -> & ->). split; [exact Hj|discriminate].
  - destruct (hasJoined s || (trim (username s) =? "")%string);
      [destruct Hstep as (-> & -> & ->); now split|].
    destruct Hstep as (-> & -> & ->). rewrite lookup_insert_eq.
    rewrite lookup_insert_ne by discriminate. rewrite lookup_insert_eq.
    split; [reflexivity|]. intros _. now right.
  - destruct (hasJoined s) eqn:Hjs;
      [|destruct Hstep as (-> & -> & ->); now split].
    destruct Hstep as (-> & -> & ->). rewrite lookup_delete_eq.
    split; [reflexivity|discriminate].
Qed.

Lemma persisted_run evs s :
  Persist.persisted s -> Persist.persisted (session_run evs s).
Proof.
  revert s. induction evs as [|e evs IH]; intros s Hs; [exact Hs|].
  simpl. apply IH. now apply persisted_step.
Qed.

(** Reloading the page. In every state the component can reach, what it
    restores from [localStorage] is whether it has joined and, for a session
    that has, its name, as typed or trimmed; the restored session starts
    with an empty message sequence and, when it has joined, connects again
    at once on a new socket that holds the restored name. *)
Theorem reload_restores_the_session storage evs :
  let s := session_run evs (mount storage) in
  let restored := mount (localStorage s) in
  hasJoined restored = hasJoined s /\
  messages restored = [] /\
  localStorage restored = localStorage s /\
  (hasJoined s = true ->
   (username restored = username s \/
    username restored = trim (username s)) /\
   connectionStatus restored = connecting /\
   ws_current restored
   = Some {| readyState := CONNECTING; outgoing := [];
             handler_username := username restored |}) /\
  (hasJoined s = false ->
   connectionStatus restored = disconnected /\ ws_current restored = None).
Proof.
  intros s restored. subst restored.
  assert (Hp : Persist.persisted s)
    by apply persisted_run, persisted_mount.
  destruct Hp as [Hj Hn]. unfold mount. open_session.
  rewrite <- Hj. destruct (hasJoined s) eqn:Hjs; simpl.
  - repeat split; try reflexivity; try discriminate. now apply Hn.
  - repeat split; try reflexivity; discriminate.
Qed.

(** Logging out forgets the session. From any state, a reload after
    [logout] shows the join screen with an empty name, no socket and no
    messages. *)
Theorem logout_then_reload_is_a_fresh_start s :
  let restored := mount (localStorage (exec logout s)) in
  hasJoined restored = false /\
  username restored = "" /\
  messages restored = [] /\
  inputMessage restored = "" /\
  connectionStatus restored = disconnected /\
  ws_current restored = None /\
  localStorage restored !! "chatUsername" = None /\
  localStorage restored !! "chatHasJoined" = None.
Proof.
  intros restored. subst restored. rewrite logout_exec. simpl.
  unfold mount. open_session.
  rewrite lookup_delete_eq.
  rewrite lookup_delete_ne by discriminate. rewrite lookup_delete_eq. simpl.
  repeat split.
  - rewrite lookup_delete_ne by discriminate. apply lookup_delete_eq.
  - apply lookup_delete_eq.
Qed.

(** ** A dropped connection stays dropped *)

Lemma dropped_step s w e :
  hasJoined s = true -> ws_current s = Some w ->
  Persist.closing_or_closed w -> e <> Logout ->
  hasJoined (session_step s e) = true /\
  messages (session_step s e) = messages s /\
  username (session_step s e) = username s /\
  exists w', ws_current (session_step s e) = Some w' /\
             Persist.closing_or_closed w' /\ outgoing w' = outgoing w.
Proof.
  intros Hj Hw Hc He.
  destruct s as [msgs input name joined st sock ls con old]. simpl in Hj, Hw.
  subst joined sock. destruct w as [r out me].
  unfold Persist.closing_or_closed in *. simpl in Hc.
  destruct e; try congruence; open_session; split_tests; simpl;
    repeat split; eauto;
    try (eexists; split; [reflexivity|]; simpl; auto);
    try (exfalso; destruct Hc; congruence);
    try (exfalso;
         match goal with
         | Hb : bool_decide (_ /\ _) = false |- _ =>
             apply bool_decide_eq_false in Hb; apply Hb; now split
         | Hb : bool_decide (_ = OPEN) = true |- _ =>
             apply bool_decide_eq_true in Hb; destruct Hc; congruence
         end).
Qed.

(** No reconnection. Once the socket of a joined session is closing or
    closed, nothing the user or the browser does short of logging out
    brings a socket that can carry anything: the session stays joined, its
    socket stays closing or closed, nothing more is transmitted and no
    message is appended. *)
Theorem dropped_session_does_not_reconnect s w evs :
  hasJoined s = true ->
  ws_current s = Some w ->
  Persist.closing_or_closed w ->
  Forall (fun e => e <> Logout) evs ->
  let s' := session_run evs s in
  hasJoined s' = true /\
  current_is_open s' = false /\
  transmitted s' = transmitted s /\
  messages s' = messages s /\
  username s' = username s.
Proof.
  intros Hj Hw Hc Hev s'. subst s'.
  assert (Hgen : hasJoined (session_run evs s) = true /\
                 messages (session_run evs s) = messages s /\
                 username (session_run evs s) = username s /\
                 exists w', ws_current (session_run evs s) = Some w' /\
                            Persist.closing_or_closed w' /\
                            outgoing w' = outgoing w).
  { revert s w Hj Hw Hc.
    induction evs as [|e evs IH]; intros s w Hj Hw Hc; simpl.
    - repeat split; eauto.
    - apply Forall_cons in Hev as [He Hev].
      destruct (dropped_step s w e Hj Hw Hc He)
        as (Hj1 & Hm1 & Hu1 & w1 & Hw1 & Hc1 & Ho1).
      destruct (IH Hev _ w1 Hj1 Hw1 Hc1) as (Hj2 & Hm2 & Hu2 & w2 & Hw2 & Hc2 & Ho2).
      repeat split; try congruence. exists w2. repeat split; congruence. }
  destruct Hgen as (Hj' & Hm' & Hu' & w' & Hw' & Hc' & Ho').
  split; [exact Hj'|]. split.
  - unfold current_is_open. rewrite Hw'. apply bool_decide_eq_false.
    destruct Hc'; congruence.
  - split; [|split; assumption]. unfold transmitted. now rewrite Hw', Hw.
Qed.

(** ** The message sequence *)

Lemma onmessage_appends me data s :
  exists added,
    messages (exec (onmessage me data) s) = messages s ++ added /\
    length added <= 1.
Proof.
  open_handler. destruct (JSON_parse data) as [[]|]; branches;
    first [ exists []; simpl; rewrite app_nil_r; split; [reflexivity|lia]
          | eexists [_]; simpl; split; [reflexivity|lia] ].
Qed.

Lemma step_appends s e :
  e <> Logout ->
  exists added,
    messages (session_step s e) = messages s ++ added /\ length added <= 1.
Proof.
  intros He. destruct e; try congruence; try
   (exists []; rewrite app_nil_r; split; [|simpl; lia];
    destruct s as [msgs input name joined st [[r out me]|] ls con old];
    open_session; split_tests; reflexivity).
  simpl. destruct (ws_current s) as [w|];
    [|exists []; rewrite app_nil_r; split; [reflexivity|simpl; lia]].
  destruct (decide (readyState w = OPEN));
    [|exists []; rewrite app_nil_r; split; [reflexivity|simpl; lia]].
  apply onmessage_appends.
Qed.

(** The message sequence is append-only. An event other than Logout leaves
    every record where it is and adds at most one at the end, so over a
    history without Logout the old sequence is a prefix of the new one and
    grows by at most one record per event; Logout empties it. *)
Theorem messages_are_only_appended s evs :
  let cleared := exec logout s in
  messages cleared = [] /\
  (Forall (fun e => e <> Logout) evs ->
   messages s `prefix_of` messages (session_run evs s) /\
   length (messages (session_run evs s)) <= length (messages s) + length evs).
Proof.
  intros cleared. subst cleared. split; [now rewrite logout_exec|].
  revert s. induction evs as [|e evs IH]; intros s Hev; simpl.
  - split; [reflexivity|lia].
  - apply Forall_cons in Hev as [He Hev].
    destruct (step_appends s e He) as (added & Ha & Hl).
    destruct (IH (session_step s e) Hev) as [Hp Hn]. split.
    + etransitivity; [|exact Hp]. rewrite Ha. now apply prefix_app_r.
    + rewrite Ha, length_app in Hn. lia.
Qed.

(** ** The sockets the session leaves behind *)

Lemma replaced_step s e :
  consistent s ->
  Forall Persist.closing_or_closed (replaced s) ->
  Forall Persist.closing_or_closed (replaced (session_step s e)).
Proof.
  intros Hs Hold.
  assert (Hput : forall i w,
            Forall Persist.closing_or_closed
              (<[i := with_ready CLOSED w]> (replaced s))).
  { intros i w. apply Forall_insert; [exact Hold|]. now right. }
  destruct e;
    try solve
     [ simpl; destruct (replaced s !! i) as [w|]; [|exact Hold];
       destruct (decide (readyState w = CLOSED)); [exact Hold|]; apply Hput
     | simpl; destruct (ws_current s) as [w|]; [|exact Hold];
       destruct (decide (readyState w = OPEN)); [|exact Hold];
       open_handler; destruct (JSON_parse data) as [[]|]; branches; exact Hold ].
  all: destruct s as [msgs input name joined st [[r out me]|] ls con old];
    unfold consistent in Hs; simpl in Hs, Hold;
    destruct joined; open_session; split_tests; simpl;
    rewrite ?app_nil_r; try exact Hold;
    apply Forall_app; (split; [exact Hold|]);
    apply Forall_singleton; unfold Persist.closing_or_closed, ws_close;
    simpl; destruct r; simpl; auto;
    exfalso; destruct Hs as [_ Hs];
    (destruct Hs as [Hj _]; [auto|discriminate]).
Qed.

Lemma replaced_run evs s :
  consistent s ->
  Forall Persist.closing_or_closed (replaced s) ->
  Forall Persist.closing_or_closed (replaced (session_run evs s)).
Proof.
  revert s. induction evs as [|e evs IH]; intros s Hs Hold; [exact Hold|].
  simpl. apply IH; [now apply consistent_step|now apply replaced_step].
Qed.

(** No socket is left open behind. Whenever the effect puts a new socket in
    [ws.current], the cleanup or [logout] has called [close] on the one it
    held: in every state the component can reach, each socket that was
    replaced is closing or closed, so none of them opens, receives or sends
    any more, and the only socket that can carry anything is the one in
    [ws.current]. *)
Theorem replaced_sockets_are_closed_first storage evs :
  let s := session_run evs (mount storage) in
  Forall Persist.closing_or_closed (replaced s) /\
  (forall i w, replaced s !! i = Some w ->
               readyState w <> CONNECTING /\ readyState w <> OPEN) /\
  (forall w, ws_current s = Some w ->
             readyState w = CONNECTING \/ readyState w = OPEN ->
             hasJoined s = true).
Proof.
  intros s.
  assert (Hs : consistent s) by apply consistent_run, consistent_mount.
  assert (Hall : Forall Persist.closing_or_closed (replaced s)).
  { apply replaced_run; [apply consistent_mount|].
    unfold mount. open_session. split_tests; simpl; constructor. }
  split; [exact Hall|]. split.
  - intros i w Hw. rewrite Forall_lookup in Hall.
    destruct (Hall i w Hw) as [Hc|Hc]; rewrite Hc; split; discriminate.
  - intros w Hw Hr. unfold consistent in Hs. rewrite Hw in Hs.
    now apply Hs.
Qed.

(** ** The connection status *)

(** What moves the connection status. Only Join makes it [connecting], only
    the [open] of the socket in [ws.current] makes it [connected], only a
    [close] or a failure makes it [disconnected], and that of any socket
    the session has created: the handlers of a replaced socket stay
    installed, so its late [close] makes the session [disconnected] and
    leaves the socket in [ws.current], open or not, as it is. Typing,
    sending, receiving a message and logging out leave the status as it
    is. *)
Theorem status_moves_only_with_a_socket s e :
  let before := connectionStatus s in
  let after := connectionStatus (session_step s e) in
  (after = before \/
   (e = Join /\ after = connecting) \/
   (e = SocketOpened /\ after = connected) \/
   ((e = SocketClosed \/ e = SocketFailed \/
     (exists i, e = ReplacedClosed i \/ e = ReplacedFailed i)) /\
    after = disconnected)) /\
  (forall i w, e = ReplacedClosed i \/ e = ReplacedFailed i ->
     replaced s !! i = Some w -> readyState w <> CLOSED ->
     after = disconnected /\
     ws_current (session_step s e) = ws_current s /\
     messages (session_step s e) = messages s /\
     replaced (session_step s e) !! i = Some (with_ready CLOSED w)).
Proof.
  intros before after. subst before after. split.
  - destruct e; try solve
     [destruct s as [msgs input name joined st [[r out me]|] ls con old];
      destruct joined;
      open_session; split_tests; simpl; eauto 10;
      exfalso;
      match goal with
      | Hb : bool_decide (_ /\ _) = false |- _ =>
          apply bool_decide_eq_false in Hb; apply Hb; now split
      end].
    left. simpl. destruct (ws_current s) as [w|]; [|reflexivity].
    destruct (decide (readyState w = OPEN)); [|reflexivity].
    apply onmessage_frame.
  - intros i w [->| ->] Hw Hr; simpl; rewrite Hw;
      (destruct (decide (readyState w = CLOSED)); [congruence|]);
      simpl; repeat split; try reflexivity;
      apply list_lookup_insert_eq; now apply lookup_lt_Some in Hw.
Qed.

End WithCodec.

Import Sample Scenario.

Lemma join_stores_the_name_and_connects_witness :
  let s := session_step (mount ∅) (TypeName " Alice ") in
  hasJoined s = false /\
  trim (username s) <> "" /\
  localStorage (session_step s Join) !! "chatUsername"
  = Some (trim (username s)) /\
  connectionStatus (session_step s Join) = connecting.
Proof.
  intros s.
  assert (Hj : hasJoined s = false) by reflexivity.
  assert (Hn : trim (username s) <> "") by (vm_compute; discriminate).
  split; [exact Hj|]. split; [exact Hn|].
  destruct (proj2 (join_stores_the_name_and_connects s Hj) Hn)
    as (_ & _ & _ & Hc & _ & Hl & _).
  split; [exact Hl|exact Hc].
Defined.

Lemma system_message_is_appended_as_system_witness :
  JSON_parse notice_payload = Some (VObj notice_fields) /\
  messages (exec (onmessage "Alice" notice_payload) alice)
  = messages alice
    ++ [VObj [("user", VStr "System");
              ("message", obj_get "message" notice_fields);
              ("timestamp", obj_get "timestamp" notice_fields);
              ("isMine", VBool false);
              ("isSystem", VBool true)]].
Proof.
  assert (Hp : JSON_parse notice_payload = Some (VObj notice_fields))
    by (vm_compute; reflexivity).
  split; [exact Hp|].
  exact (proj1 (system_message_is_appended_as_system "Alice" notice_payload
                  notice_fields alice Hp eq_refl)).
Defined.

Lemma register_message_is_consumed_witness :
  JSON_parse registration = Some (VObj registration_fields) /\
  messages (exec (onmessage "Alice" registration) alice) = messages alice.
Proof.
  assert (Hp : JSON_parse registration = Some (VObj registration_fields))
    by (vm_compute; reflexivity).
  split; [exact Hp|].
  exact (proj1 (register_message_is_consumed "Alice" registration
                  registration_fields alice Hp eq_refl)).
Defined.

Lemma the_session_decides_isMine_witness :
  JSON_parse spoof = Some (VObj spoof_fields) /\
  obj_get "isMine" spoof_fields = VBool true /\
  exists record,
    messages (exec (onmessage "Alice" spoof) alice)
    = messages alice ++ [VObj record] /\
    obj_get "isMine" record
    = VBool (strict_eq_str (obj_get "user" spoof_fields) "Alice") /\
    Render.justify record = Render.Centered.
Proof.
  assert (Hp : JSON_parse spoof = Some (VObj spoof_fields))
    by (vm_compute; reflexivity).
  split; [exact Hp|]. split; [reflexivity|].
  destruct (the_session_decides_isMine "Alice" spoof spoof_fields alice
              Hp eq_refl eq_refl eq_refl)
    as (record & Hm & Hi & _ & Hj & _).
  exists record. split; [exact Hm|]. split; [exact Hi|exact Hj].
Defined.

Lemma non_record_payload_is_reported_witness :
  JSON_parse "[true,null]" = Some (VArr [VBool true; VNull]) /\
  session_quiet (exec (onmessage "Alice" "[true,null]") alice)
  = session_quiet alice.
Proof.
  assert (Hp : JSON_parse "[true,null]" = Some (VArr [VBool true; VNull]))
    by (vm_compute; reflexivity).
  split; [exact Hp|].
  destruct (non_record_payload_is_reported "Alice" "[true,null]" _ alice Hp I)
    as (_ & Hq & _).
  exact Hq.
Defined.

(** Alice logs out and joins again before the [close] of her first socket
    has come. When it comes, the session is [disconnected] although the
    socket in [ws.current] is open. *)
Lemma status_moves_only_with_a_socket_witness :
  let first := {| readyState := CLOSING; outgoing := [];
                  handler_username := "Alice" |} in
  replaced rejoined_alice !! 0 = Some first /\
  readyState first <> CLOSED /\
  connectionStatus rejoined_alice = connected /\
  current_is_open rejoined_alice = true /\
  connectionStatus (session_step rejoined_alice (ReplacedClosed 0))
  = disconnected /\
  ws_current (session_step rejoined_alice (ReplacedClosed 0))
  = ws_current rejoined_alice.
Proof.
  intros first.
  assert (Hw : replaced rejoined_alice !! 0 = Some first) by reflexivity.
  assert (Hr : readyState first <> CLOSED) by discriminate.
  split; [exact Hw|]. split; [exact Hr|].
  split; [reflexivity|]. split; [reflexivity|].
  destruct (proj2 (status_moves_only_with_a_socket rejoined_alice
                     (ReplacedClosed 0)) 0 first (or_introl eq_refl) Hw Hr)
    as (Hd & Hc & _).
  split; [exact Hd|exact Hc].
Defined.

Lemma dropped_session_does_not_reconnect_witness :
  let evs := [Send "09:20"; SocketOpened; Join; TypeMessage "again";
              SocketMessage hello] in
  hasJoined dropped_alice = true /\
  Forall (fun e => e <> Logout) evs /\
  current_is_open (session_run evs dropped_alice) = false /\
  messages (session_run evs dropped_alice) = messages dropped_alice.
Proof.
  intros evs.
  assert (Hj : hasJoined dropped_alice = true) by reflexivity.
  assert (Hev : Forall (fun e => e <> Logout) evs)
    by (repeat constructor; discriminate).
  split; [exact Hj|]. split; [exact Hev|].
  destruct (dropped_session_does_not_reconnect dropped_alice
              {| readyState := CLOSED; outgoing := [];
                 handler_username := "Alice" |} evs Hj eq_refl
              (or_intror eq_refl) Hev) as (_ & Ho & _ & Hm & _).
  split; [exact Ho|exact Hm].
Defined.

End SessionCoverage.

(* ===================================================================== *)
(** * From one session through the relay to another *)
(* ===================================================================== *)

Module EndToEnd.
#[local] Open Scope list_scope.

Section WithCodec.
Context `{Codec}.

(** The welcome. When [JSON.parse] reads the welcome back as it was
    printed, the text the relay sends to a connection it accepts, received
    by a session on its open socket, is appended as a system record with
    the relay's greeting and the relay's time. *)
Theorem welcome_becomes_a_system_record
    (r : Server.server) ws now (c : Client.session) w text :
  JSON_parse (JSON_stringify (Server.welcome now))
  = Some (Server.welcome now) ->
  Client.ws_current c = Some w ->
  Client.readyState w = OPEN ->
  (ws, text) ∈ Server.sent_since r (Server.step r (Server.Accept ws now)) ->
  Client.messages (Client.session_step c (Client.SocketMessage text))
  = Client.messages c
    ++ [VObj [("user", VStr "System");
              ("message", VStr "Connected to chat server!");
              ("timestamp", VStr now);
              ("isMine", VBool false);
              ("isSystem", VBool true)]].
Proof.
  intros Hcodec Hw Ho Hin.
  assert (Hs : Server.sent_since r (Server.step r (Server.Accept ws now))
               = [(ws, JSON_stringify (Server.welcome now))])
    by now apply RelayFacts.sent_since_app.
  rewrite Hs in Hin. apply list_elem_of_singleton in Hin.
  assert (Ht : text = JSON_stringify (Server.welcome now)) by congruence.
  subst text.
  simpl. rewrite Hw. destruct (decide (Client.readyState w = OPEN));
    [|contradiction].
  SessionFacts.open_handler. rewrite Hcodec. reflexivity.
Qed.

(** A chat message from end to end. A session with an open socket and a
    name sends a text; the relay, with the frame in hand at its own time,
    sends a text to each open registered connection; a session that
    receives that text on its open socket appends a record with the
    sender's name, the trimmed text and the relay's time, not the
    sender's, tagged as its own exactly when its name is the sender's.
    ([JSON.parse] is assumed to read the two Messages back as they were
    printed.) *)
Theorem chat_message_from_sender_to_receiver
    (a : Client.session) sent_at
    (r : Server.server) ws now k
    storage evs w :
  let b := Client.session_run evs (Client.mount storage) in
  let body := trim (Client.inputMessage a) in
  let outgoing := Client.outgoing_message (Client.username a)
                    (Client.inputMessage a) sent_at in
  let stamped := VObj [("type", VStr "message");
                       ("user", VStr (Client.username a));
                       ("message", VStr body);
                       ("timestamp", VStr now)] in
  JSON_parse (JSON_stringify outgoing) = Some outgoing ->
  JSON_parse (JSON_stringify stamped) = Some stamped ->
  Client.current_is_open a = true ->
  truthy (VStr body) = true ->
  truthy (VStr (Client.username a)) = true ->
  k ∈ Server.clients r ->
  Server.is_open r k = true ->
  Client.ws_current b = Some w ->
  Client.readyState w = OPEN ->
  exists frame delivered,
    Client.transmitted (exec (Client.sendMessage sent_at) a)
    = Client.transmitted a ++ [frame] /\
    (k, delivered)
      ∈ Server.sent_since r (Server.step r (Server.Inbound ws frame now)) /\
    (forall k' t,
       (k', t) ∈ Server.sent_since r
                   (Server.step r (Server.Inbound ws frame now)) ->
       t = delivered) /\
    Client.messages (Client.session_step b (Client.SocketMessage delivered))
    = Client.messages b
      ++ [VObj [("type", VStr "message");
                ("user", VStr (Client.username a));
                ("message", VStr body);
                ("timestamp", VStr now);
                ("isMine",
                 VBool (Client.username a =? Client.username b)%string)]].
Proof.
  intros b body outgoing stamped Hout Hst Ho Hbody Hname Hk Hko Hw Hwo.
  exists (JSON_stringify outgoing), (JSON_stringify stamped).
  assert (Hne : trim (Client.inputMessage a) <> "")
    by now apply SessionFacts.truthy_string.
  destruct (SessionFacts.sendMessage_sends sent_at a Ho Hne) as (_ & Hs & _).
  split; [exact Hs|].
  assert (Hrelay : Server.sent_since r
                     (Server.step r
                        (Server.Inbound ws (JSON_stringify outgoing) now))
                   = Server.deliveries stamped r).
  { simpl. unfold outgoing, Client.outgoing_message in Hout |- *.
    rewrite (RelayFacts.on_message_sent_since _ _ _ _ _ Hout). reflexivity. }
  rewrite Hrelay. split.
  { unfold Server.deliveries. apply list_elem_of_fmap. exists k.
    split; [reflexivity|]. apply list_elem_of_filter.
    split; [now apply Is_true_true|exact Hk]. }
  split; [intros k' t; apply RelayFacts.deliveries_text|].
  assert (Hb : Client.consistent b)
    by apply SessionFacts.consistent_run, SessionFacts.consistent_mount.
  unfold Client.consistent in Hb. rewrite Hw in Hb.
  destruct Hb as [_ Hb]. destruct (Hb (or_intror Hwo)) as [_ Hme].
  simpl. rewrite Hw. destruct (decide (Client.readyState w = OPEN));
    [|contradiction].
  rewrite (SessionFacts.onmessage_user_message _ _ _ _ Hst);
    try (simpl; congruence).
  - unfold Client.tagged. simpl. now rewrite Hme.
  - simpl. simpl in Hname, Hbody. now rewrite Hname, Hbody.
Qed.

End WithCodec.

Import Sample Scenario.

Lemma welcome_becomes_a_system_record_witness :
  JSON_parse (JSON_stringify (Server.welcome "09:05"))
  = Some (Server.welcome "09:05") /\
  Client.messages
    (Client.session_step alice
       (Client.SocketMessage (JSON_stringify (Server.welcome "09:05"))))
  = Client.messages alice
    ++ [VObj [("user", VStr "System");
              ("message", VStr "Connected to chat server!");
              ("timestamp", VStr "09:05");
              ("isMine", VBool false);
              ("isSystem", VBool true)]].
Proof.
  assert (Hcodec : JSON_parse (JSON_stringify (Server.welcome "09:05"))
                   = Some (Server.welcome "09:05"))
    by (vm_compute; reflexivity).
  split; [exact Hcodec|].
  apply (welcome_becomes_a_system_record two_clients 3 "09:05" alice
           {| Client.readyState := OPEN; Client.outgoing := [];
              Client.handler_username := "Alice" |});
    [exact Hcodec|reflexivity|reflexivity|].
  vm_compute. left.
Defined.

Lemma chat_message_from_sender_to_receiver_witness :
  let a := typing " hi " alice in
  Client.current_is_open a = true /\
  truthy (VStr (trim (Client.inputMessage a))) = true /\
  truthy (VStr (Client.username a)) = true /\
  2 ∈ Server.clients two_clients /\
  Server.is_open two_clients 2 = true /\
  exists frame delivered,
    Client.transmitted (exec (Client.sendMessage "09:10") a)
    = Client.transmitted a ++ [frame] /\
    (2, delivered)
      ∈ Server.sent_since two_clients
          (Server.step two_clients (Server.Inbound 1 frame "09:11")) /\
    (forall k' t,
       (k', t) ∈ Server.sent_since two_clients
                   (Server.step two_clients (Server.Inbound 1 frame "09:11")) ->
       t = delivered) /\
    Client.messages (Client.session_step bob (Client.SocketMessage delivered))
    = Client.messages bob
      ++ [VObj [("type", VStr "message");
                ("user", VStr (Client.username a));
                ("message", VStr (trim (Client.inputMessage a)));
                ("timestamp", VStr "09:11");
                ("isMine",
                 VBool (Client.username a =? Client.username bob)%string)]].
Proof.
  intros a.
  assert (Ho : Client.current_is_open a = true) by (vm_compute; reflexivity).
  assert (Hb : truthy (VStr (trim (Client.inputMessage a))) = true)
    by (vm_compute; reflexivity).
  assert (Hn : truthy (VStr (Client.username a)) = true)
    by (vm_compute; reflexivity).
  assert (Hk : 2 ∈ Server.clients two_clients) by (vm_compute; right; left).
  assert (Hko : Server.is_open two_clients 2 = true)
    by (vm_compute; reflexivity).
  split; [exact Ho|]. split; [exact Hb|]. split; [exact Hn|].
  split; [exact Hk|]. split; [exact Hko|].
  refine (chat_message_from_sender_to_receiver a "09:10"
            two_clients 1 "09:11" 2 ∅
            [Client.TypeName "Bob"; Client.Join; Client.SocketOpened]
            {| Client.readyState := OPEN; Client.outgoing := [];
               Client.handler_username := "Bob" |}
            _ _ Ho Hb Hn Hk Hko _ _);
    vm_compute; reflexivity.
Defined.

End EndToEnd.
